(** * lib-wallet-chain-btc: the sync and accounting core

    A shallow embedding of [src/sync-manager.js] and [src/address-watch.js]
    (classes [SyncManager] and [AddressWatch]) together with the properties
    the specification states about them.

    JavaScript numbers that hold block heights, confirmations and satoshi
    amounts are integers ([Z]); array indices and HD indices are [nat];
    strings are [string]; JS objects used as dictionaries are [gmap]s keyed
    by strings; arrays are lists.  The manager's mutable fields are threaded
    through every operation as an explicit state record, and whatever the
    code sends to the outside (events, console output, the reconcile pass of
    the unspent store) is appended to a chronological effect trace. *)

From stdpp Require Import gmap strings list pretty.
From Stdlib Require Import ZArith.

Local Open Scope Z_scope.
Local Open Scope string_scope.
Local Open Scope list_scope.

(** ** Data model *)

(** [_getTxState] answers with one of three string literals. *)
Inductive TxState : Type :=
  | mempool
  | pending
  | confirmed.

(** The ['in'] / ['out'] argument of [_processUtxo]. *)
Inductive InOut : Type :=
  | dir_in
  | dir_out.

(** [TxEntry.INCOMING] and friends. *)
Inductive Direction : Type :=
  | INCOMING
  | OUTGOING
  | INTERNAL
  | UNKNOWN.

(** The two HD chains, ['ext'] and ['in']. *)
Inductive Chain : Type :=
  | chain_ext
  | chain_in.

#[export] Instance TxState_eq_dec : EqDecision TxState.
Proof. solve_decision. Defined.
#[export] Instance InOut_eq_dec : EqDecision InOut.
Proof. solve_decision. Defined.
#[export] Instance Direction_eq_dec : EqDecision Direction.
Proof. solve_decision. Defined.
#[export] Instance Chain_eq_dec : EqDecision Chain.
Proof. solve_decision. Defined.

(** What [keyManager.addrFromPath] returns. *)
Record AddrInfo : Type := mkAddrInfo {
  ai_address : string;
  ai_publicKey : string;
  ai_privateKey : string;
  ai_path : string
}.

(** An element of [tx.out] or [tx.in] as the provider builds it, with the
    three fields [_processUtxo] writes into it. *)
Record Utxo : Type := mkUtxo {
  u_address : string;
  u_value : Z;
  u_witness_hex : string;
  u_txid : string;
  u_index : nat;
  u_prev_txid : string;
  u_prev_index : nat;
  u_own_addr : bool;
  u_address_public_key : option string;
  u_address_path : option string
}.

(** A transaction of the history handed to [_processHistory]. *)
Record Tx : Type := mkTx {
  tx_txid : string;
  tx_height : Z;
  tx_fee : Z;
  tx_out : list Utxo;
  tx_in : list Utxo
}.

(** The argument object of [new TxEntry({...})]. *)
Record TxEntry : Type := mkTxEntry {
  e_txid : string;
  e_from_address : list string;
  e_to_address : list string;
  e_fee : Z;
  e_amount : Z;
  e_height : Z;
  e_direction : Direction;
  e_to_address_meta : list (Z * bool)
}.

(** The block object [updateBlock] stores in [currentBlock]. *)
Record Block : Type := mkBlock {
  blk_current : Z;
  blk_last : Z;
  blk_diff : Z
}.

(** ** Currency

    Modelled from the spec: [src/currency.js] (class [Bitcoin]) is not among
    the sources.  The spec fixes all internal math to base units, so an
    amount is an integer number of satoshi, [new Bitcoin(0, 'main')] is [0]
    and [a.add(b)] is integer addition. *)
Definition Bitcoin_zero : Z := 0.

Definition Bitcoin_add (a b : Z) : Z := a + b.

(** ** AddressStore

    Modelled from the spec: [src/address-manager.js] is not among the
    sources.  A ledger maps each state to a dictionary from outpoint to
    amount; an address record holds the three ledgers [in], [out] and [fee];
    the store maps an address to its record and keeps a transaction log keyed
    by txid. *)
Record Balance : Type := mkBalance {
  b_mempool : gmap string Z;
  b_pending : gmap string Z;
  b_confirmed : gmap string Z
}.

Definition Balance_empty : Balance := mkBalance ∅ ∅ ∅.

Definition Balance_bucket (st : TxState) (b : Balance) : gmap string Z :=
  match st with
  | mempool => b_mempool b
  | pending => b_pending b
  | confirmed => b_confirmed b
  end.

(** [bal.getTx(state, point)]: the recorded amount, [None] for [undefined]. *)
Definition Balance_getTx (st : TxState) (point : string) (b : Balance) : option Z :=
  Balance_bucket st b !! point.

(** [bal.addTxid(state, point, value)]. *)
Definition Balance_addTxid (st : TxState) (point : string) (v : Z) (b : Balance) : Balance :=
  match st with
  | mempool => mkBalance (<[point := v]> (b_mempool b)) (b_pending b) (b_confirmed b)
  | pending => mkBalance (b_mempool b) (<[point := v]> (b_pending b)) (b_confirmed b)
  | confirmed => mkBalance (b_mempool b) (b_pending b) (<[point := v]> (b_confirmed b))
  end.

Record AddrRecord : Type := mkAddrRecord {
  r_in : Balance;
  r_out : Balance;
  r_fee : Balance
}.

Definition AddrRecord_empty : AddrRecord :=
  mkAddrRecord Balance_empty Balance_empty Balance_empty.

(** [bal[inout]]. *)
Definition AddrRecord_ledger (io : InOut) (r : AddrRecord) : Balance :=
  match io with
  | dir_in => r_in r
  | dir_out => r_out r
  end.

Definition AddrRecord_with_ledger (io : InOut) (b : Balance) (r : AddrRecord) : AddrRecord :=
  match io with
  | dir_in => mkAddrRecord b (r_out r) (r_fee r)
  | dir_out => mkAddrRecord (r_in r) b (r_fee r)
  end.

Definition AddrRecord_with_fee (b : Balance) (r : AddrRecord) : AddrRecord :=
  mkAddrRecord (r_in r) (r_out r) b.

Record AddressManager : Type := mkAddressManager {
  am_addresses : gmap string AddrRecord;
  am_txs : gmap string TxEntry
}.

Definition AddressManager_empty : AddressManager := mkAddressManager ∅ ∅.

(** [_addr.get(address)]. *)
Definition AddressManager_get (a : string) (m : AddressManager) : option AddrRecord :=
  am_addresses m !! a.

(** [_addr.newAddress(address)]: a record with empty ledgers. *)
Definition AddressManager_newAddress (a : string) (m : AddressManager) : AddressManager :=
  mkAddressManager (<[a := AddrRecord_empty]> (am_addresses m)) (am_txs m).

(** [_addr.set(address, bal)]. *)
Definition AddressManager_set (a : string) (r : AddrRecord) (m : AddressManager) : AddressManager :=
  mkAddressManager (<[a := r]> (am_addresses m)) (am_txs m).

(** [_addr.storeTx(entry)]: the log is keyed by txid. *)
Definition AddressManager_storeTx (e : TxEntry) (m : AddressManager) : AddressManager :=
  mkAddressManager (am_addresses m) (<[e_txid e := e]> (am_txs m)).

(** [_addr.clear()]. *)
Definition AddressManager_clear (m : AddressManager) : AddressManager :=
  AddressManager_empty.

(** ** TotalBalance

    Modelled from the spec: [src/total-balance.js] is not among the sources.
    One aggregate per state; an output credits its state, a spending input
    debits it (invariant 4 of the spec: total = sum of out minus in). *)
Record TotalBalance : Type := mkTotalBalance {
  tb_mempool : Z;
  tb_pending : Z;
  tb_confirmed : Z
}.

Definition TotalBalance_zero : TotalBalance := mkTotalBalance 0 0 0.

Definition TotalBalance_adjust (st : TxState) (d : Z) (t : TotalBalance) : TotalBalance :=
  match st with
  | mempool => mkTotalBalance (tb_mempool t + d) (tb_pending t) (tb_confirmed t)
  | pending => mkTotalBalance (tb_mempool t) (tb_pending t + d) (tb_confirmed t)
  | confirmed => mkTotalBalance (tb_mempool t) (tb_pending t) (tb_confirmed t + d)
  end.

(** [_totalBal.addTxId(inout, txState, utxo, point, txFee)]. *)
Definition TotalBalance_addTxId
    (io : InOut) (st : TxState) (u : Utxo) (point : string) (fee : Z)
    (t : TotalBalance) : TotalBalance :=
  match io with
  | dir_out => TotalBalance_adjust st (u_value u) t
  | dir_in => TotalBalance_adjust st (- u_value u) t
  end.

(** ** UnspentStore

    Modelled from the spec: [src/unspent-store.js] is not among the sources.
    [add] files the item under the outputs or under the spending inputs;
    [process] reconciles: it removes every output whose spending input has
    been observed. *)
Record UnspentStore : Type := mkUnspentStore {
  us_vout : list Utxo;
  us_vin : list Utxo
}.

Definition UnspentStore_empty : UnspentStore := mkUnspentStore [] [].

Definition UnspentStore_add (u : Utxo) (io : InOut) (s : UnspentStore) : UnspentStore :=
  match io with
  | dir_out => mkUnspentStore (us_vout s ++ [u]) (us_vin s)
  | dir_in => mkUnspentStore (us_vout s) (us_vin s ++ [u])
  end.

Definition Utxo_spent_by (o i : Utxo) : bool :=
  bool_decide (u_txid o = u_prev_txid i) && bool_decide (u_index o = u_prev_index i).

Definition UnspentStore_process (s : UnspentStore) : UnspentStore :=
  mkUnspentStore
    (List.filter (fun o => negb (existsb (Utxo_spent_by o) (us_vin s))) (us_vout s))
    (us_vin s).

(** ** Errors and fallible calls *)

(** A thrown JavaScript error: [new Error(msg)] or the [TypeError] the
    engine raises when a missing property is called. *)
Inductive JsError : Type :=
  | Error (message : string)
  | TypeError (message : string).

(** An [async] method either resolves with a value or rejects; the state
    reached so far is kept in both cases, since mutations are not undone. *)
Inductive Result (S A : Type) : Type :=
  | Returned (a : A) (s : S)
  | Threw (e : JsError) (s : S).

Arguments Returned {S A} a s.
Arguments Threw {S A} e s.

Definition Result_state {S A : Type} (r : Result S A) : S :=
  match r with
  | Returned _ s => s
  | Threw _ s => s
  end.

Definition Result_threw {S A : Type} (r : Result S A) : bool :=
  match r with
  | Returned _ _ => false
  | Threw _ _ => true
  end.

Definition Result_bind {S A B : Type} (r : Result S A) (k : A -> S -> Result S B) : Result S B :=
  match r with
  | Returned a s => k a s
  | Threw e s => Threw e s
  end.

(** ** The provider and the key manager

    Both are external collaborators.  The key manager is the pure function
    [pathToScriptHash]; the provider is a request oracle: a request either
    yields an answer or fails with a transport error. *)
Inductive RpcResult (A : Type) : Type :=
  | rpc_ok (a : A)
  | rpc_fail (err : string).

Arguments rpc_ok {A} a.
Arguments rpc_fail {A} err.

(** What [subscribeToAddress] resolves to: the status hash of the script
    hash, [null] when it has no history, or the error object of the
    JSON-RPC answer. *)
Inductive BalHash : Type :=
  | bh_null
  | bh_status (h : string)
  | bh_error (message : string).

#[export] Instance BalHash_eq_dec : EqDecision BalHash.
Proof. solve_decision. Defined.

Record ScriptHashOfPath : Type := mkScriptHashOfPath {
  sh_hash : string;
  sh_addr : AddrInfo
}.

Record KeyManager : Type := mkKeyManager {
  pathToScriptHash : string -> string -> ScriptHashOfPath
}.

Record Provider : Type := mkProvider {
  rpc_getAddressHistory : string -> RpcResult (list Tx);
  rpc_getMempoolTx : string -> RpcResult (list Tx);
  rpc_subscribeToAddress : string -> RpcResult BalHash
}.

(** ** StateDb

    Modelled from the spec: [src/utils.js] (class [StateDb]) is not among the
    sources.  It persists, per chain, the list of watched
    [(script_hash, status_hash)] pairs; a chain never written reads as the
    empty list and a write replaces the list of its chain. *)
Record StateDb : Type := mkStateDb {
  st_watched_ext : list (string * BalHash);
  st_watched_in : list (string * BalHash)
}.

Definition StateDb_empty : StateDb := mkStateDb [] [].

Definition StateDb_getWatchedScriptHashes (c : Chain) (st : StateDb) : list (string * BalHash) :=
  match c with
  | chain_ext => st_watched_ext st
  | chain_in => st_watched_in st
  end.

Definition StateDb_addWatchedScriptHashes
    (l : list (string * BalHash)) (c : Chain) (st : StateDb) : StateDb :=
  match c with
  | chain_ext => mkStateDb l (st_watched_in st)
  | chain_in => mkStateDb (st_watched_ext st) l
  end.

(** ** AddressWatch ([src/address-watch.js]) *)

Record AddressWatch : Type := mkAddressWatch {
  aw_state : StateDb;
  aw_maxScriptWatch : Z
}.

(** [config.maxScriptWatch || 10]: [undefined] and [0] are falsy. *)
Definition AddressWatch_default_max (cfg : option Z) : Z :=
  match cfg with
  | Some n => if bool_decide (n = 0) then 10 else n
  | None => 10
  end.

(** The constructor. *)
Definition AddressWatch_new (st : StateDb) (cfg_maxScriptWatch : option Z) : AddressWatch :=
  mkAddressWatch st (AddressWatch_default_max cfg_maxScriptWatch).

(** [Array.prototype.shift]: drops the first element, if any. *)
Definition shift {A : Type} (l : list A) : list A := tail l.

(** [balHash?.message], as a condition: only an error object has a
    [message], and the empty string is falsy. *)
Definition BalHash_message (b : BalHash) : option string :=
  match b with
  | bh_error m => if bool_decide (m = "") then None else Some m
  | _ => None
  end.

(** [watchAddress (scriptHash, addrType)]. *)
Definition AddressWatch_watchAddress
    (pv : Provider) (scriptHash : string) (addrType : Chain)
    (w : AddressWatch) : Result AddressWatch unit :=
  let hashList := StateDb_getWatchedScriptHashes addrType (aw_state w) in
  let hashList :=
    if bool_decide (aw_maxScriptWatch w <= Z.of_nat (length hashList))
    then shift hashList else hashList in
  match rpc_subscribeToAddress pv scriptHash with
  | rpc_fail err => Threw (Error err) w
  | rpc_ok balHash =>
      match BalHash_message balHash with
      | Some m => Threw (Error ("Failed to subscribe to address " +:+ m)) w
      | None =>
          let hashList := hashList ++ [(scriptHash, balHash)] in
          Returned tt
            (mkAddressWatch
               (StateDb_addWatchedScriptHashes hashList addrType (aw_state w))
               (aw_maxScriptWatch w))
      end
  end.

(** [getWatchedAddress ()]: the pair [{ inlist, extlist }]. *)
Definition AddressWatch_getWatchedAddress (w : AddressWatch)
    : list (string * BalHash) * list (string * BalHash) :=
  (StateDb_getWatchedScriptHashes chain_in (aw_state w),
   StateDb_getWatchedScriptHashes chain_ext (aw_state w)).

(** The methods an [AddressWatch] instance answers to: the three the class
    declares and the ones it inherits from [EventEmitter] that the code
    uses.  Any other property reads as [undefined]. *)
Inductive AddressWatchMethod : Type :=
  | aw_startWatching
  | aw_watchAddress
  | aw_getWatchedAddress
  | aw_on
  | aw_emit.

Definition AddressWatch_method (name : string) : option AddressWatchMethod :=
  if bool_decide (name = "startWatching") then Some aw_startWatching
  else if bool_decide (name = "watchAddress") then Some aw_watchAddress
  else if bool_decide (name = "getWatchedAddress") then Some aw_getWatchedAddress
  else if bool_decide (name = "on") then Some aw_on
  else if bool_decide (name = "emit") then Some aw_emit
  else None.

(** ** HdWallet

    Modelled from the spec: the class comes from the [lib-wallet] package.
    It knows the wallet's addresses and keeps, per chain, the cursor of the
    gap-limit scan. *)
Record Cursor : Type := mkCursor {
  c_index : nat;
  c_gap : nat
}.

Definition Cursor_init : Cursor := mkCursor 0 0.

Record HdWallet : Type := mkHdWallet {
  hd_addresses : gmap string AddrInfo;
  hd_purpose : string;
  hd_coinType : string;
  hd_gapLimit : nat;
  hd_ext : Cursor;
  hd_in : Cursor
}.

Definition HdWallet_getAddress (a : string) (h : HdWallet) : option AddrInfo :=
  hd_addresses h !! a.

Definition HdWallet_addAddress (ai : AddrInfo) (h : HdWallet) : HdWallet :=
  mkHdWallet (<[ai_address ai := ai]> (hd_addresses h))
    (hd_purpose h) (hd_coinType h) (hd_gapLimit h) (hd_ext h) (hd_in h).

Definition HdWallet_resetSyncState (h : HdWallet) : HdWallet :=
  mkHdWallet (hd_addresses h) (hd_purpose h) (hd_coinType h) (hd_gapLimit h)
    Cursor_init Cursor_init.

Definition HdWallet_cursor (c : Chain) (h : HdWallet) : Cursor :=
  match c with
  | chain_ext => hd_ext h
  | chain_in => hd_in h
  end.

Definition HdWallet_with_cursor (c : Chain) (cur : Cursor) (h : HdWallet) : HdWallet :=
  match c with
  | chain_ext =>
      mkHdWallet (hd_addresses h) (hd_purpose h) (hd_coinType h) (hd_gapLimit h) cur (hd_in h)
  | chain_in =>
      mkHdWallet (hd_addresses h) (hd_purpose h) (hd_coinType h) (hd_gapLimit h) (hd_ext h) cur
  end.

Definition Chain_change (c : Chain) : string :=
  match c with
  | chain_ext => "0"
  | chain_in => "1"
  end.

(** The serialisation [m/84'/c'/0'/change/index]. *)
Definition HdWallet_path (h : HdWallet) (c : Chain) (i : nat) : string :=
  "m/" +:+ hd_purpose h +:+ "/" +:+ hd_coinType h +:+ "/0'/" +:+ Chain_change c
    +:+ "/" +:+ pretty i.

(** The three answers a visit gives to the scan. *)
Inductive Signal : Type :=
  | hasTx
  | noTx
  | stop.

#[export] Instance Signal_eq_dec : EqDecision Signal.
Proof. solve_decision. Defined.

(** The [syncState] a visit receives. *)
Record SyncState : Type := mkSyncState {
  ss_addrType : Chain;
  ss_path : string;
  ss_index : nat;
  ss_gap : nat
}.

(** ** What the manager sends to the outside *)

Inductive Payload : Type :=
  | pl_none
  | pl_entry (e : TxEntry)
  | pl_synced_path (addrType : Chain) (path : string) (has_tx : bool) (snapshot : SyncState).

Inductive Effect : Type :=
  | emit (event : string) (payload : Payload)
  | console_log (message : string) (err : JsError)
  | unspent_process_called.

(** ** SyncManager ([src/sync-manager.js]) *)

Record SyncManager : Type := mkSyncManager {
  _halt : bool;
  _isSyncing : bool;
  _tx_events : list string;
  currentBlock : Block;
  minBlockConfirm : Z;
  _addressType : string;
  _addrWatch : AddressWatch;
  _addr : AddressManager;
  _unspent : UnspentStore;
  _totalBal : TotalBalance;
  hdWallet : HdWallet;
  provider_cache : gmap string (list Tx);
  effects : list Effect
}.

Definition set_halt (b : bool) (s : SyncManager) : SyncManager :=
  mkSyncManager b (_isSyncing s) (_tx_events s) (currentBlock s) (minBlockConfirm s)
    (_addressType s) (_addrWatch s) (_addr s) (_unspent s) (_totalBal s) (hdWallet s)
    (provider_cache s) (effects s).

Definition set_isSyncing (b : bool) (s : SyncManager) : SyncManager :=
  mkSyncManager (_halt s) b (_tx_events s) (currentBlock s) (minBlockConfirm s)
    (_addressType s) (_addrWatch s) (_addr s) (_unspent s) (_totalBal s) (hdWallet s)
    (provider_cache s) (effects s).

Definition set_tx_events (l : list string) (s : SyncManager) : SyncManager :=
  mkSyncManager (_halt s) (_isSyncing s) l (currentBlock s) (minBlockConfirm s)
    (_addressType s) (_addrWatch s) (_addr s) (_unspent s) (_totalBal s) (hdWallet s)
    (provider_cache s) (effects s).

Definition set_addrWatch (w : AddressWatch) (s : SyncManager) : SyncManager :=
  mkSyncManager (_halt s) (_isSyncing s) (_tx_events s) (currentBlock s) (minBlockConfirm s)
    (_addressType s) w (_addr s) (_unspent s) (_totalBal s) (hdWallet s)
    (provider_cache s) (effects s).

Definition set_addr (m : AddressManager) (s : SyncManager) : SyncManager :=
  mkSyncManager (_halt s) (_isSyncing s) (_tx_events s) (currentBlock s) (minBlockConfirm s)
    (_addressType s) (_addrWatch s) m (_unspent s) (_totalBal s) (hdWallet s)
    (provider_cache s) (effects s).

Definition set_unspent (u : UnspentStore) (s : SyncManager) : SyncManager :=
  mkSyncManager (_halt s) (_isSyncing s) (_tx_events s) (currentBlock s) (minBlockConfirm s)
    (_addressType s) (_addrWatch s) (_addr s) u (_totalBal s) (hdWallet s)
    (provider_cache s) (effects s).

Definition set_totalBal (t : TotalBalance) (s : SyncManager) : SyncManager :=
  mkSyncManager (_halt s) (_isSyncing s) (_tx_events s) (currentBlock s) (minBlockConfirm s)
    (_addressType s) (_addrWatch s) (_addr s) (_unspent s) t (hdWallet s)
    (provider_cache s) (effects s).

Definition set_hdWallet (h : HdWallet) (s : SyncManager) : SyncManager :=
  mkSyncManager (_halt s) (_isSyncing s) (_tx_events s) (currentBlock s) (minBlockConfirm s)
    (_addressType s) (_addrWatch s) (_addr s) (_unspent s) (_totalBal s) h
    (provider_cache s) (effects s).

Definition set_provider_cache (c : gmap string (list Tx)) (s : SyncManager) : SyncManager :=
  mkSyncManager (_halt s) (_isSyncing s) (_tx_events s) (currentBlock s) (minBlockConfirm s)
    (_addressType s) (_addrWatch s) (_addr s) (_unspent s) (_totalBal s) (hdWallet s)
    c (effects s).

(** Appends one item to the trace. *)
Definition perform (e : Effect) (s : SyncManager) : SyncManager :=
  mkSyncManager (_halt s) (_isSyncing s) (_tx_events s) (currentBlock s) (minBlockConfirm s)
    (_addressType s) (_addrWatch s) (_addr s) (_unspent s) (_totalBal s) (hdWallet s)
    (provider_cache s) (effects s ++ [e]).

Definition P2WPKH : string := "p2wpkh".

Definition stopSync (s : SyncManager) : SyncManager := set_halt true s.

Definition resumeSync (s : SyncManager) : SyncManager := set_halt false s.

(** [_getTxState (tx)]. *)
Definition _getTxState (tx : Tx) (s : SyncManager) : TxState :=
  if bool_decide (tx_height tx = 0) then mempool
  else
    let diff := blk_current (currentBlock s) - tx_height tx in
    if bool_decide (minBlockConfirm s <= diff) then confirmed
    else pending.

(** [watchTxMempool (txid)]. *)
Definition watchTxMempool (txid : string) (s : SyncManager) : SyncManager :=
  if bool_decide (txid ∈ _tx_events s) then s
  else set_tx_events (_tx_events s ++ [txid]) s.

(** [Array.prototype.indexOf]: the first position of [x], [-1] if absent. *)
Fixpoint indexOf (x : string) (l : list string) : Z :=
  match l with
  | [] => -1
  | y :: l' =>
      if bool_decide (x = y) then 0
      else
        let i := indexOf x l' in
        if bool_decide (0 <= i) then i + 1 else -1
  end.

(** [_emitTxEvent (tx)]; [splice(index, 1)] removes the element at
    [index]. *)
Definition _emitTxEvent (tx : TxEntry) (s : SyncManager) : SyncManager :=
  let index := indexOf (e_txid tx) (_tx_events s) in
  if bool_decide (e_height tx = 0) && bool_decide (0 <= index) then
    let s := set_tx_events (delete (Z.to_nat index) (_tx_events s)) s in
    perform (emit ("tx:mempool:" +:+ e_txid tx) (pl_entry tx)) s
  else s.

(** The identifier [point] of an item: [txid:index] for an output,
    [prev_txid:prev_index] for an input. *)
Definition outpoint (io : InOut) (u : Utxo) : string :=
  match io with
  | dir_out => u_txid u +:+ ":" +:+ pretty (u_index u)
  | dir_in => u_prev_txid u +:+ ":" +:+ pretty (u_prev_index u)
  end.

Definition Utxo_with_own_addr (b : bool) (u : Utxo) : Utxo :=
  mkUtxo (u_address u) (u_value u) (u_witness_hex u) (u_txid u) (u_index u)
    (u_prev_txid u) (u_prev_index u) b (u_address_public_key u) (u_address_path u).

Definition Utxo_with_addr_info (ai : AddrInfo) (u : Utxo) : Utxo :=
  mkUtxo (u_address u) (u_value u) (u_witness_hex u) (u_txid u) (u_index u)
    (u_prev_txid u) (u_prev_index u) (u_own_addr u)
    (Some (ai_publicKey ai)) (Some (ai_path ai)).

Section Manager.

Context (keyManager : KeyManager) (provider : Provider).

(** A path argument is optional, and the empty string is falsy. *)
Definition addrObj_of_path (path : option string) : option ScriptHashOfPath :=
  match path with
  | Some p => if bool_decide (p = "") then None else Some (pathToScriptHash keyManager p P2WPKH)
  | None => None
  end.

(** One turn of the loop of [_processUtxo]: the state after it and the item
    pushed to [res].  [addrObj] is [Some] exactly when [path] is truthy.  A
    recorded amount is an object, hence truthy, so [getTx] decides the skip
    by presence. *)
Definition _processUtxo_item
    (addrObj : option ScriptHashOfPath) (inout : InOut) (txState : TxState) (txFee : Z)
    (s : SyncManager) (utxo : Utxo) : SyncManager * Utxo :=
  let a := u_address utxo in
  let addr := HdWallet_getAddress a (hdWallet s) in
  let utxo := Utxo_with_own_addr false utxo in
  let '(s, bal) :=
    match AddressManager_get a (_addr s) with
    | Some bal => (s, bal)
    | None => (set_addr (AddressManager_newAddress a (_addr s)) s, AddrRecord_empty)
    end in
  let derived :=
    match addrObj, addr with
    | Some ao, None =>
        if bool_decide (ai_address (sh_addr ao) ≠ a) then inl s
        else
          let s := set_hdWallet (HdWallet_addAddress (sh_addr ao) (hdWallet s)) s in
          inr (s, HdWallet_getAddress (ai_address (sh_addr ao)) (hdWallet s))
    | _, _ => inr (s, addr)
    end in
  match derived with
  | inl s => (s, utxo)
  | inr (s, None) => (s, utxo)
  | inr (s, Some addr) =>
      let utxo := Utxo_with_own_addr true utxo in
      let point := outpoint inout utxo in
      let utxo := Utxo_with_addr_info addr utxo in
      match Balance_getTx txState point (AddrRecord_ledger inout bal) with
      | Some _ => (s, utxo)
      | None =>
          let bal :=
            AddrRecord_with_ledger inout
              (Balance_addTxid txState point (u_value utxo) (AddrRecord_ledger inout bal)) bal in
          let s := set_totalBal (TotalBalance_addTxId inout txState utxo point txFee (_totalBal s)) s in
          let bal :=
            if bool_decide (0 < txFee)
            then AddrRecord_with_fee (Balance_addTxid txState point txFee (r_fee bal)) bal
            else bal in
          let s := set_addr (AddressManager_set a bal (_addr s)) s in
          let s := set_unspent (UnspentStore_add utxo inout (_unspent s)) s in
          (s, utxo)
      end
  end.

(** [_processUtxo (utxoList, inout, txState, txFee, path)]: the state and
    the array [res]. *)
Definition _processUtxo
    (utxoList : list Utxo) (inout : InOut) (txState : TxState) (txFee : Z)
    (path : option string) (s : SyncManager) : SyncManager * list Utxo :=
  let addrObj := addrObj_of_path path in
  fold_left
    (fun (acc : SyncManager * list Utxo) utxo =>
       let '(s, res) := acc in
       let '(s, utxo) := _processUtxo_item addrObj inout txState txFee s utxo in
       (s, res ++ [utxo]))
    utxoList (s, []).

(** The classification of [_processHistory], from the arrays [outs] and
    [ins] that [_processUtxo] returned for [tx.out] and [tx.in]. *)
Definition _processHistory_direction (tx : Tx) (outs ins : list Utxo) : Direction :=
  let ownOuts := List.filter u_own_addr outs in
  let ownIns := List.filter u_own_addr ins in
  if bool_decide (length ownOuts = length (tx_out tx))
     && bool_decide (length ownIns = length (tx_in tx)) then INTERNAL
  else if bool_decide (length ownIns = 0%nat) then INCOMING
  else if bool_decide (0 < length ownOuts)%nat then OUTGOING
  else UNKNOWN.

(** The [reduce] that computes [totalOutput]. *)
Definition _processHistory_totalOutput (direction : Direction) (outs : list Utxo) : Z :=
  fold_left
    (fun sum d =>
       if (bool_decide (direction = INCOMING) || bool_decide (direction = INTERNAL))
          && u_own_addr d
       then Bitcoin_add sum (u_value d)
       else if bool_decide (direction = OUTGOING) && negb (u_own_addr d)
       then Bitcoin_add sum (u_value d)
       else sum)
    outs Bitcoin_zero.

(** The [TxEntry] built for [tx]. *)
Definition _processHistory_entry (tx : Tx) (outs ins : list Utxo) : TxEntry :=
  let direction := _processHistory_direction tx outs ins in
  let totalOutput := _processHistory_totalOutput direction outs in
  mkTxEntry (tx_txid tx) (map u_address (tx_in tx)) (map u_address (tx_out tx))
    (tx_fee tx) totalOutput (tx_height tx) direction
    (map (fun out => (u_value out, u_own_addr out)) outs).

(** The body of the loop of [_processHistory] for one transaction.  The
    timestamp [mempool_ts] written into [tx] is read nowhere in the
    manager and is left out. *)
Definition _processHistory_tx
    (path : option string) (s : SyncManager) (tx : Tx) : SyncManager * TxEntry :=
  let txState := _getTxState tx s in
  let '(s, outs) := _processUtxo (tx_out tx) dir_out txState (tx_fee tx) path s in
  let '(s, ins) := _processUtxo (tx_in tx) dir_in txState 0 path s in
  let entry := _processHistory_entry tx outs ins in
  let s :=
    if bool_decide (e_height entry = 0) then perform (emit "new-tx" (pl_entry entry)) s
    else s in
  let s := set_addr (AddressManager_storeTx entry (_addr s)) s in
  (s, entry).

(** The [for] loop of [_processHistory]: the state and [newHistory]. *)
Definition _processHistory_loop
    (txHistory : list Tx) (path : option string) (s : SyncManager)
    : SyncManager * list TxEntry :=
  fold_left
    (fun (acc : SyncManager * list TxEntry) tx =>
       let '(s, newHistory) := acc in
       let '(s, entry) := _processHistory_tx path s tx in
       (s, newHistory ++ [entry]))
    txHistory (s, []).

(** [_processHistory (txHistory, path)]: the loop, then [_emitTxEvent] for
    each new entry; the state and [newHistory]. *)
Definition _processHistory
    (txHistory : list Tx) (path : option string) (s : SyncManager)
    : SyncManager * list TxEntry :=
  let '(s, newHistory) := _processHistory_loop txHistory path s in
  (fold_left (fun s tx => _emitTxEvent tx s) newHistory s, newHistory).

(** [provider.getAddressHistory ({ cache }, scriptHash)].

    Modelled from the spec: [src/provider.js] is not among the sources.  With
    [cache: true] a cached answer is served; otherwise the request goes out,
    fails with a transport error or yields the history, which is cached. *)
Definition Provider_getAddressHistory
    (cache : bool) (scriptHash : string) (s : SyncManager)
    : RpcResult (list Tx) * SyncManager :=
  match (if cache then provider_cache s !! scriptHash else None) with
  | Some txs => (rpc_ok txs, s)
  | None =>
      match rpc_getAddressHistory provider scriptHash with
      | rpc_ok txs =>
          (rpc_ok txs, set_provider_cache (<[scriptHash := txs]> (provider_cache s)) s)
      | rpc_fail err => (rpc_fail err, s)
      end
  end.

(** [_processPath (path, signal)].  [_halt] is read when the method is
    entered, before the request. *)
Definition _processPath (path : string) (s : SyncManager) : SyncManager * Signal :=
  let halt := _halt s in
  let scriptHash := sh_hash (pathToScriptHash keyManager path (_addressType s)) in
  match Provider_getAddressHistory true scriptHash s with
  | (rpc_fail e, s) =>
      (perform (console_log "failed to get address history" (Error e)) s, stop)
  | (rpc_ok txHistory, s) =>
      if halt then (s, stop)
      else
        match txHistory with
        | [] => (s, noTx)
        | _ :: _ =>
            let '(s, _) := _processHistory txHistory (Some path) s in
            (s, hasTx)
        end
  end.

(** How a scan ended: the gap limit was reached, a visit answered [stop],
    or the fuel of the model ran out while the scan was still going. *)
Inductive ScanEnd : Type :=
  | scan_complete
  | scan_stopped
  | scan_out_of_fuel.

(** The gap-limit scan of one chain.

    Modelled from the spec: [HdWallet.eachAccount] comes from the
    [lib-wallet] package.  The scan of a chain is over once the gap counter
    has reached the gap limit; [hasTx] resets the gap counter and advances
    the index, [noTx] increments the gap counter and advances the index,
    [stop] aborts the scan. *)
Fixpoint HdWallet_scanChain
    (fuel : nat) (visit : SyncState -> SyncManager -> SyncManager * Signal)
    (c : Chain) (s : SyncManager) : SyncManager * ScanEnd :=
  match fuel with
  | O => (s, scan_out_of_fuel)
  | S fuel =>
      let cur := HdWallet_cursor c (hdWallet s) in
      if bool_decide (hd_gapLimit (hdWallet s) <= c_gap cur)%nat then (s, scan_complete)
      else
        let syncState :=
          mkSyncState c (HdWallet_path (hdWallet s) c (c_index cur)) (c_index cur) (c_gap cur) in
        let '(s, signal) := visit syncState s in
        match signal with
        | hasTx =>
            let cur := mkCursor (S (c_index cur)) 0 in
            HdWallet_scanChain fuel visit c
              (set_hdWallet (HdWallet_with_cursor c cur (hdWallet s)) s)
        | noTx =>
            let cur := mkCursor (S (c_index cur)) (S (c_gap cur)) in
            HdWallet_scanChain fuel visit c
              (set_hdWallet (HdWallet_with_cursor c cur (hdWallet s)) s)
        | stop => (s, scan_stopped)
        end
  end.

(** [hdWallet.eachAccount (visit)]: the external chain is scanned to
    completion before the internal one. *)
Definition HdWallet_eachAccount
    (fuel : nat) (visit : SyncState -> SyncManager -> SyncManager * Signal)
    (s : SyncManager) : SyncManager * ScanEnd :=
  let '(s, e) := HdWallet_scanChain fuel visit chain_ext s in
  match e with
  | scan_complete => HdWallet_scanChain fuel visit chain_in s
  | _ => (s, e)
  end.

(** The options object of [syncAccount]; the argument itself may be
    [undefined]. *)
Record SyncOpts : Type := mkSyncOpts {
  opts_reset : bool;
  opts_restart : bool
}.

(** [opts?.restart] as a condition. *)
Definition opts_restart_set (opts : option SyncOpts) : bool :=
  match opts with
  | Some o => opts_restart o
  | None => false
  end.

(** String conversion of a boolean in a concatenation. *)
Definition bool_to_string (b : bool) : string := if b then "true" else "false".

(** How a call of [syncAccount] ends: the promise resolves, it rejects, or
    the scan was still going when the fuel of the model ran out. *)
Inductive SyncOutcome : Type :=
  | sync_resolved (s : SyncManager)
  | sync_rejected (e : JsError) (s : SyncManager)
  | sync_unfinished (s : SyncManager).

(** The visit [syncAccount] hands to [eachAccount]. *)
Definition syncAccount_visit (syncState : SyncState) (s : SyncManager) : SyncManager * Signal :=
  if _halt s then (s, stop)
  else
    let path := ss_path syncState in
    let '(s, res) := _processPath path s in
    (perform
       (emit "synced-path"
          (pl_synced_path (ss_addrType syncState) path (bool_decide (res = hasTx)) syncState)) s,
     res).

(** The block of [syncAccount] guarded by [opts?.restart]. *)
Definition syncAccount_restart (s : SyncManager) : SyncManager :=
  let s := set_hdWallet (HdWallet_resetSyncState (hdWallet s)) s in
  let s := set_provider_cache ∅ s in
  set_addr (AddressManager_clear (_addr s)) s.

(** What [syncAccount] does once [eachAccount] has returned. *)
Definition syncAccount_finish (r : SyncManager * ScanEnd) : SyncOutcome :=
  let '(s, e) := r in
  match e with
  | scan_out_of_fuel => sync_unfinished s
  | _ =>
      if _halt s then
        let s := set_isSyncing false s in
        let s := perform (emit "sync-end" pl_none) s in
        sync_resolved (resumeSync s)
      else
        let s := set_unspent (UnspentStore_process (_unspent s)) s in
        let s := perform unspent_process_called s in
        let s := set_isSyncing false s in
        let s := resumeSync s in
        sync_resolved (perform (emit "sync-end" pl_none) s)
  end.

(** [syncAccount (opts)]. *)
Definition syncAccount (fuel : nat) (opts : option SyncOpts) (s : SyncManager) : SyncOutcome :=
  if _halt s || _isSyncing s then
    sync_rejected
      (Error ("halted:" +:+ bool_to_string (_halt s)
              +:+ " is syncing: " +:+ bool_to_string (_isSyncing s))) s
  else
    let s := set_isSyncing true s in
    let s := if opts_restart_set opts then syncAccount_restart s else s in
    syncAccount_finish (HdWallet_eachAccount fuel syncAccount_visit s).

(** [changeHash === balHash]: strings compare by value, [null] equals
    [null], an absent argument is [undefined], and two error objects are
    never the same object. *)
Definition changeHash_strict_eq (changeHash : option BalHash) (balHash : BalHash) : bool :=
  match changeHash, balHash with
  | Some bh_null, bh_null => true
  | Some (bh_status a), bh_status b => bool_decide (a = b)
  | _, _ => false
  end.

(** The local function [process] of [_updateScriptHashBalance], its entries
    taken in order; the first failing request rejects it. *)
Fixpoint _updateScriptHashBalance_process
    (changeScriptHash : string) (changeHash : option BalHash)
    (data : list (string * BalHash)) (s : SyncManager) : Result SyncManager unit :=
  match data with
  | [] => Returned tt s
  | (scripthash, balHash) :: data =>
      if bool_decide (changeScriptHash ≠ scripthash)
      then _updateScriptHashBalance_process changeScriptHash changeHash data s
      else if changeHash_strict_eq changeHash balHash
      then _updateScriptHashBalance_process changeScriptHash changeHash data s
      else if _halt s
      then _updateScriptHashBalance_process changeScriptHash changeHash data s
      else
        match rpc_getMempoolTx provider scripthash with
        | rpc_fail err => Threw (Error err) s
        | rpc_ok txHistory =>
            let '(s, _) := _processHistory txHistory None s in
            _updateScriptHashBalance_process changeScriptHash changeHash data s
        end
  end.

(** [_updateScriptHashBalance (changeScriptHash, changeHash)].  The call
    [_addrWatch.stopWatching (inlist)] looks the method up on the
    [AddressWatch] instance; calling [undefined] raises a [TypeError]. *)
Definition _updateScriptHashBalance
    (changeScriptHash : string) (changeHash : option BalHash)
    (s : SyncManager) : Result SyncManager unit :=
  let '(inlist, extlist) := AddressWatch_getWatchedAddress (_addrWatch s) in
  Result_bind (_updateScriptHashBalance_process changeScriptHash changeHash extlist s) (fun _ s =>
  Result_bind (_updateScriptHashBalance_process changeScriptHash changeHash inlist s) (fun _ s =>
  match AddressWatch_method "stopWatching" with
  | None => Threw (TypeError "_addrWatch.stopWatching is not a function") s
  | Some _ =>
      let s := set_unspent (UnspentStore_process (_unspent s)) s in
      Returned tt (perform unspent_process_called s)
  end)).

(** The listener the constructor installs on [_addrWatch] for ['new-tx']. *)
Definition on_new_tx
    (changeScriptHash : string) (changeHash : option BalHash)
    (s : SyncManager) : SyncManager :=
  if _halt s then s
  else
    match _updateScriptHashBalance changeScriptHash changeHash s with
    | Returned _ s => s
    | Threw err s => perform (console_log "failed to update addr balance" err) s
    end.

End Manager.

(** ** The classification and the amount in the words of the specification *)

(** The direction as the specification words it, from the ownership of
    each output and of each input: all outputs ours and all inputs ours is
    [INTERNAL]; no inputs ours is [INCOMING]; some inputs ours and at least
    one output exists is [OUTGOING]; else [UNKNOWN]. *)
Definition spec_direction (outs_ours ins_ours : list bool) : Direction :=
  if forallb id outs_ours && forallb id ins_ours then INTERNAL
  else if negb (existsb id ins_ours) then INCOMING
  else if existsb id ins_ours && bool_decide (0 < length outs_ours)%nat then OUTGOING
  else UNKNOWN.

(** The same with the third case asking for an output of the wallet. *)
Definition own_output_direction (outs_ours ins_ours : list bool) : Direction :=
  if forallb id outs_ours && forallb id ins_ours then INTERNAL
  else if negb (existsb id ins_ours) then INCOMING
  else if existsb id ins_ours && existsb id outs_ours then OUTGOING
  else UNKNOWN.

(** Whether an output counts towards the amount of an entry. *)
Definition counts_towards_amount (direction : Direction) (own : bool) : bool :=
  match direction with
  | INCOMING | INTERNAL => own
  | OUTGOING => negb own
  | UNKNOWN => false
  end.

Definition sum_values (l : list Utxo) : Z :=
  foldr (fun u acc => u_value u + acc) 0 l.

(** ** Ownership

    The address [_processUtxo] works with for an item: the one the HD wallet
    knows, else the one derived from the path being synced when that is the
    item's address. *)
Definition resolve_address
    (addrObj : option ScriptHashOfPath) (h : HdWallet) (a : string) : option AddrInfo :=
  match HdWallet_getAddress a h with
  | Some ai => Some ai
  | None =>
      match addrObj with
      | Some ao => if bool_decide (ai_address (sh_addr ao) = a) then Some (sh_addr ao) else None
      | None => None
      end
  end.

(** An address belongs to the wallet when it resolves. *)
Definition is_ours (addrObj : option ScriptHashOfPath) (h : HdWallet) (a : string) : bool :=
  match resolve_address addrObj h a with
  | Some _ => true
  | None => false
  end.

(** The item as [_processUtxo] hands it back. *)
Definition marked (addrObj : option ScriptHashOfPath) (h : HdWallet) (u : Utxo) : Utxo :=
  match resolve_address addrObj h (u_address u) with
  | Some ai => Utxo_with_addr_info ai (Utxo_with_own_addr true u)
  | None => Utxo_with_own_addr false u
  end.

(** ** Sequences of calls on the mempool watch list *)

(** A call of [watchTxMempool] or of [_emitTxEvent]. *)
Inductive WatchCall : Type :=
  | call_watchTxMempool (txid : string)
  | call_emitTxEvent (tx : TxEntry).

Definition run_call (s : SyncManager) (c : WatchCall) : SyncManager :=
  match c with
  | call_watchTxMempool txid => watchTxMempool txid s
  | call_emitTxEvent tx => _emitTxEvent tx s
  end.

Definition run_calls (cs : list WatchCall) (s : SyncManager) : SyncManager :=
  fold_left run_call cs s.

(** How often [event] was emitted in a trace. *)
Fixpoint emitted (event : string) (tr : list Effect) : nat :=
  match tr with
  | [] => 0
  | emit ev _ :: tr => (if bool_decide (ev = event) then 1 else 0) + emitted event tr
  | _ :: tr => emitted event tr
  end.

(** How often [watchTxMempool (txid)] occurs in a sequence of calls. *)
Fixpoint watch_calls (txid : string) (cs : list WatchCall) : nat :=
  match cs with
  | [] => 0
  | call_watchTxMempool t :: cs => (if bool_decide (t = txid) then 1 else 0) + watch_calls txid cs
  | _ :: cs => watch_calls txid cs
  end.

(** [1] while [txid] is registered and waits for its event, else [0]. *)
Definition registered (txid : string) (s : SyncManager) : nat :=
  if bool_decide (txid ∈ _tx_events s) then 1 else 0.

(** How often the reconcile pass of the unspent store ran in a trace. *)
Fixpoint unspent_process_calls (tr : list Effect) : nat :=
  match tr with
  | [] => 0
  | unspent_process_called :: tr => S (unspent_process_calls tr)
  | _ :: tr => unspent_process_calls tr
  end.

(** ** A sample wallet *)

Module Sample.

Definition keyManager : KeyManager :=
  mkKeyManager (fun path _ =>
    mkScriptHashOfPath ("sh:" +:+ path)
      (mkAddrInfo ("addr:" +:+ path) ("pub:" +:+ path) ("wif:" +:+ path) path)).

(** A provider whose every request fails with a transport error. *)
Definition provider_down : Provider :=
  mkProvider (fun _ => rpc_fail "ECONNRESET") (fun _ => rpc_fail "ECONNRESET")
    (fun _ => rpc_fail "ECONNRESET").

(** A provider that knows no transaction. *)
Definition provider_idle : Provider :=
  mkProvider (fun _ => rpc_ok []) (fun _ => rpc_ok []) (fun _ => rpc_ok (bh_status "s1")).

Definition mine : AddrInfo := mkAddrInfo "bcrt1qmine" "02aa" "cTmine" "m/84'/1'/0'/0/0".

Definition hdWallet : HdWallet :=
  mkHdWallet {[ "bcrt1qmine" := mine ]} "84'" "1'" 20 Cursor_init Cursor_init.

Definition manager : SyncManager :=
  mkSyncManager false false [] (mkBlock 105 104 1) 1 P2WPKH
    (AddressWatch_new StateDb_empty None)
    AddressManager_empty UnspentStore_empty TotalBalance_zero hdWallet ∅ [].

(** An output paying 70000 sat to a foreign address. *)
Definition out_foreign : Utxo :=
  mkUtxo "bcrt1qtheirs" 70000 "0014bb" "t2" 0 "" 0 false None None.

(** An input spending our 100000 sat output [t1:0]. *)
Definition in_mine : Utxo :=
  mkUtxo "bcrt1qmine" 100000 "0014aa" "t2" 0 "t1" 0 false None None.

(** An output paying 100000 sat to our address. *)
Definition out_mine : Utxo :=
  mkUtxo "bcrt1qmine" 100000 "0014aa" "t1" 0 "" 0 false None None.

Definition in_foreign : Utxo :=
  mkUtxo "bcrt1qfaucet" 150000 "0014cc" "t1" 0 "t0" 3 false None None.

(** We are paid: the input is foreign, the output is ours. *)
Definition tx_receive : Tx := mkTx "t1" 100 50000 [out_mine] [in_foreign].

(** We spend our only output in full, without change. *)
Definition tx_sweep : Tx := mkTx "t2" 0 30000 [out_foreign] [in_mine].

End Sample.

(** ** Ledger invariants *)

(** The outpoint of [u] is recorded under the bucket [st] of the ledger
    [io] of its address. *)
Definition recorded (io : InOut) (st : TxState) (u : Utxo) (m : AddressManager) : Prop :=
  exists r,
    AddressManager_get (u_address u) m = Some r
    /\ is_Some (Balance_getTx st (outpoint io u) (AddrRecord_ledger io r)).

(** Nothing is left to do for [u]: its address has a record, and if the
    address is the wallet's, the HD wallet knows it and the outpoint is
    recorded. *)
Definition settled
    (ao : option ScriptHashOfPath) (io : InOut) (st : TxState)
    (s : SyncManager) (u : Utxo) : Prop :=
  is_Some (AddressManager_get (u_address u) (_addr s))
  /\ (is_ours ao (hdWallet s) (u_address u) = true ->
      is_Some (HdWallet_getAddress (u_address u) (hdWallet s))
      /\ recorded io st u (_addr s)).

(** Every outpoint recorded in [r] is recorded in [r']. *)
Definition ledger_le (r r' : AddrRecord) : Prop :=
  forall io st p,
    is_Some (Balance_getTx st p (AddrRecord_ledger io r)) ->
    is_Some (Balance_getTx st p (AddrRecord_ledger io r')).

(** From [s] to [s'] the block data is the same, every address resolves
    as before, and the HD wallet and the ledgers have only grown. *)
Definition advances (ao : option ScriptHashOfPath) (s s' : SyncManager) : Prop :=
  currentBlock s' = currentBlock s
  /\ minBlockConfirm s' = minBlockConfirm s
  /\ (forall a, resolve_address ao (hdWallet s') a = resolve_address ao (hdWallet s) a)
  /\ (forall a, is_Some (HdWallet_getAddress a (hdWallet s)) ->
                is_Some (HdWallet_getAddress a (hdWallet s')))
  /\ (forall a r, AddressManager_get a (_addr s) = Some r ->
         exists r', AddressManager_get a (_addr s') = Some r' /\ ledger_le r r').

(** Every item of [tx] is settled under the state [_getTxState] gives it. *)
Definition tx_settled (ao : option ScriptHashOfPath) (s : SyncManager) (tx : Tx) : Prop :=
  Forall (settled ao dir_out (_getTxState tx s) s) (tx_out tx)
  /\ Forall (settled ao dir_in (_getTxState tx s) s) (tx_in tx).

(** The entry [_processHistory] builds for [tx] when addresses resolve
    as they do against the HD wallet [h]. *)
Definition entry_against (ao : option ScriptHashOfPath) (h : HdWallet) (tx : Tx) : TxEntry :=
  _processHistory_entry tx (map (marked ao h) (tx_out tx)) (map (marked ao h) (tx_in tx)).


(** The transaction log after [storeTx] of each entry in turn. *)
Definition log_all (es : list TxEntry) (m : gmap string TxEntry) : gmap string TxEntry :=
  fold_left (fun m e => <[e_txid e := e]> m) es m.

(** ** Frames and traces *)

(** From [s] to [s'] the flags, the watcher, the provider cache, the
    configured address type and the scan data of the HD wallet are the
    same. *)
Definition same_control (s s' : SyncManager) : Prop :=
  _halt s' = _halt s
  /\ _isSyncing s' = _isSyncing s
  /\ _addrWatch s' = _addrWatch s
  /\ provider_cache s' = provider_cache s
  /\ _addressType s' = _addressType s
  /\ hd_purpose (hdWallet s') = hd_purpose (hdWallet s)
  /\ hd_coinType (hdWallet s') = hd_coinType (hdWallet s)
  /\ hd_gapLimit (hdWallet s') = hd_gapLimit (hdWallet s)
  /\ hd_ext (hdWallet s') = hd_ext (hdWallet s)
  /\ hd_in (hdWallet s') = hd_in (hdWallet s).

(** The trace of [s'] is the trace of [s] followed by effects that all
    satisfy [P]. *)
Definition trace_extends (P : Effect -> Prop) (s s' : SyncManager) : Prop :=
  exists tr, effects s' = effects s ++ tr /\ Forall P tr.

(** The event [new-tx]. *)
Definition is_new_tx (e : Effect) : Prop :=
  exists entry, e = emit "new-tx" (pl_entry entry).

(** An event [tx:mempool:<txid>]. *)
Definition is_tx_mempool (e : Effect) : Prop :=
  exists entry, e = emit ("tx:mempool:" +:+ e_txid entry) (pl_entry entry).


(** Whether an entry is a mempool entry. *)
Definition in_mempool (e : TxEntry) : bool := bool_decide (e_height e = 0).

(** From [s] to [s'] the two flags of the manager are the same. *)
Definition same_flags (s s' : SyncManager) : Prop :=
  _halt s' = _halt s /\ _isSyncing s' = _isSyncing s.

(** From [s] to [s'] the monetary state is the same: address records and
    transaction log, total balance, unspent store. *)
Definition same_money (s s' : SyncManager) : Prop :=
  _addr s' = _addr s /\ _totalBal s' = _totalBal s /\ _unspent s' = _unspent s.

(** ** New blocks ([updateBlock], [_newBlock]) *)

Definition set_currentBlock (b : Block) (s : SyncManager) : SyncManager :=
  mkSyncManager (_halt s) (_isSyncing s) (_tx_events s) b (minBlockConfirm s)
    (_addressType s) (_addrWatch s) (_addr s) (_unspent s) (_totalBal s) (hdWallet s)
    (provider_cache s) (effects s).

(** [_addr.getTxHeight (height)].

    Modelled from the spec: the secondary index [height -> [txid]] of the
    AddressStore, read off the transaction log: the entries stored under
    that height, an empty array when there is none. *)
Definition AddressManager_getTxHeight (h : Z) (m : AddressManager) : list TxEntry :=
  List.filter (fun e => bool_decide (e_height e = h)) (map snd (map_to_list (am_txs m))).

(** [Promise.all (arr.map (...getTransaction...))]: every answer, or the
    first failure. *)
Fixpoint fetch_all (getTransaction : string -> RpcResult Tx) (txids : list string)
    : RpcResult (list Tx) :=
  match txids with
  | [] => rpc_ok []
  | txid :: txids =>
      match getTransaction txid with
      | rpc_fail err => rpc_fail err
      | rpc_ok tx =>
          match fetch_all getTransaction txids with
          | rpc_fail err => rpc_fail err
          | rpc_ok txs => rpc_ok (tx :: txs)
          end
      end
  end.

(** The array [arr] of [_newBlock]: the mempool entries, then the entries
    of every height from [currentBlock.last] to [currentBlock.current]. *)
Definition _newBlock_arr (s : SyncManager) : list TxEntry :=
  let last := blk_last (currentBlock s) in
  let current := blk_current (currentBlock s) in
  AddressManager_getTxHeight 0 (_addr s)
  ++ flat_map (fun i => AddressManager_getTxHeight i (_addr s))
       (seqZ last (current - last + 1)).

(** [_newBlock ()], with [provider.getTransaction (txid, { cache: false })]
    as the request oracle [getTransaction]. *)
Definition _newBlock
    (keyManager : KeyManager) (getTransaction : string -> RpcResult Tx)
    (s : SyncManager) : SyncManager :=
  let arr := _newBlock_arr s in
  match arr with
  | [] => s
  | _ :: _ =>
      match fetch_all getTransaction (map e_txid arr) with
      | rpc_fail err => perform (console_log "failed to get tx " (Error err)) s
      | rpc_ok newTx =>
          let '(s, newTx) := _processHistory keyManager newTx None s in
          let s := set_unspent (UnspentStore_process (_unspent s)) s in
          let s := perform unspent_process_called s in
          fold_left (fun s entry => perform (emit "new-tx" (pl_entry entry)) s) newTx s
      end
  end.

(** [updateBlock (block)].  The call of [_newBlock] is not awaited; here
    it runs to its end before [updateBlock] returns. *)
Definition updateBlock
    (keyManager : KeyManager) (getTransaction : string -> RpcResult Tx)
    (block : Block) (s : SyncManager) : SyncManager :=
  if bool_decide (blk_current block <> 0) && bool_decide (0 < blk_diff block)
     && bool_decide (blk_last block <> 0)
  then _newBlock keyManager getTransaction (set_currentBlock block s)
  else set_currentBlock block s.

(** ** Reset and pause *)

(** [reset ()] of an initialised manager, with [_totalBal.resetBalance ()]
    (in [src/total-balance.js], not among the sources) as the function
    [resetBalance]. *)
Definition reset (resetBalance : TotalBalance -> TotalBalance) (s : SyncManager) : SyncManager :=
  let s := set_totalBal (resetBalance (_totalBal s)) s in
  let s := resumeSync s in
  set_hdWallet (HdWallet_resetSyncState (hdWallet s)) s.

(** [opts?.reset] as a condition. *)
Definition opts_reset_set (opts : option SyncOpts) : bool :=
  match opts with
  | Some o => opts_reset o
  | None => false
  end.

(** [WalletPayBitcoin.syncTransactions (opts)] ([src/wallet-pay-btc.js]). *)
Definition syncTransactions
    (keyManager : KeyManager) (provider : Provider)
    (resetBalance : TotalBalance -> TotalBalance)
    (fuel : nat) (opts : option SyncOpts) (s : SyncManager) : SyncOutcome :=
  let s := if opts_reset_set opts then reset resetBalance s else s in
  syncAccount keyManager provider fuel opts s.


(** [config.min_block_confirm || 1] and [config.gapLimit || 20] of the
    constructor of [WalletPayBitcoin]. *)
Definition WalletPayBitcoin_min_block_confirm (cfg : option Z) : Z :=
  match cfg with
  | Some n => if bool_decide (n = 0) then 1 else n
  | None => 1
  end.

Definition WalletPayBitcoin_gapLimit (cfg : option nat) : nat :=
  match cfg with
  | Some n => if bool_decide (n = 0%nat) then 20%nat else n
  | None => 20%nat
  end.

(** ** Sequences of [watchAddress] and [startWatching] *)

(** The watcher after a call of [watchAddress], resolved or rejected. *)
Definition AddressWatch_after
    (pv : Provider) (w : AddressWatch) (call : string * Chain) : AddressWatch :=
  Result_state (AddressWatch_watchAddress pv (fst call) (snd call) w).

Definition AddressWatch_after_all
    (pv : Provider) (calls : list (string * Chain)) (w : AddressWatch) : AddressWatch :=
  fold_left (AddressWatch_after pv) calls w.

(** The script hashes [startWatching] subscribes to: those of the
    internal chain, then those of the external chain. *)
Definition AddressWatch_startWatching_hashes (w : AddressWatch) : list string :=
  map fst
    (StateDb_getWatchedScriptHashes chain_in (aw_state w)
     ++ StateDb_getWatchedScriptHashes chain_ext (aw_state w)).

(** [startWatching ()]: the subscriptions go out for every hash; the call
    rejects with the first failure among them. *)
Definition AddressWatch_startWatching (pv : Provider) (w : AddressWatch)
    : Result AddressWatch (list string) :=
  let hashes := AddressWatch_startWatching_hashes w in
  match
    List.find
      (fun h => match rpc_subscribeToAddress pv h with rpc_fail _ => true | rpc_ok _ => false end)
      hashes
  with
  | Some h =>
      match rpc_subscribeToAddress pv h with
      | rpc_fail err => Threw (Error err) w
      | rpc_ok _ => Returned hashes w
      end
  | None => Returned hashes w
  end.

(** ** The transaction cache of [Electrum] ([src/unnamed/part_002])

    [this.cache] is a JavaScript [Map]: it keeps its keys in insertion
    order, [set] on a present key replaces the value in place, and
    [cache.keys ().next ().value] is the oldest key. *)
Section JsMap.

Context {V : Type}.

Definition JsMap_get (k : string) (m : list (string * V)) : option V :=
  snd <$> List.find (fun p => bool_decide (fst p = k)) m.

Fixpoint JsMap_set (k : string) (v : V) (m : list (string * V)) : list (string * V) :=
  match m with
  | [] => [(k, v)]
  | (k', v') :: m' =>
      if bool_decide (k' = k) then (k, v) :: m' else (k', v') :: JsMap_set k v m'
  end.

(** [cache.delete (cache.keys ().next ().value)]. *)
Definition JsMap_delete_oldest (m : list (string * V)) : list (string * V) := tail m.

(** The local function [getOrFetch] of [getTransaction], with
    [_getTransaction] as the request oracle [fetch] and [_max_cache_size]
    as [max]: the answer and the cache afterwards. *)
Definition getOrFetch
    (fetch : string -> RpcResult V) (max : nat) (txid : string)
    (cache : list (string * V)) : RpcResult V * list (string * V) :=
  match JsMap_get txid cache with
  | Some data => (rpc_ok data, cache)
  | None =>
      match fetch txid with
      | rpc_fail err => (rpc_fail err, cache)
      | rpc_ok data =>
          let cache :=
            if bool_decide (max < length cache)%nat then JsMap_delete_oldest cache
            else cache in
          (rpc_ok data, JsMap_set txid data cache)
      end
  end.


End JsMap.

(** ** WalletKeyBitcoin ([src/wallet-key-btc.js])

    The table [bitcoin.networks] and [bip32.fromSeed] belong to external
    packages and are parameters. *)
Section KeyManagerState.

Context {Seed Network Bip32 : Type}.
Context (networks : string -> option Network) (fromSeed : Seed -> Network -> Bip32).

Record WalletKeyBitcoin : Type := mkWalletKeyBitcoin {
  k_seed : option Seed;
  k_bip32 : option Bip32;
  k_network : option Network;
  k_ready : bool
}.

(** [setNetwork (network)]: the assignment comes before the test. *)
Definition setNetwork (network : string) (k : WalletKeyBitcoin)
    : Result WalletKeyBitcoin unit :=
  let network := if bool_decide (network = "mainnet") then "bitcoin" else network in
  let k := mkWalletKeyBitcoin (k_seed k) (k_bip32 k) (networks network) (k_ready k) in
  match k_network k with
  | None => Threw (Error "invalid network passed") k
  | Some _ => Returned tt k
  end.


(** [setSeed (seed)]; the argument may be [undefined]. *)
Definition setSeed (seed : option Seed) (k : WalletKeyBitcoin)
    : Result WalletKeyBitcoin unit :=
  match k_seed k with
  | Some _ => Threw (Error "Seed already set") k
  | None =>
      match k_network k with
      | None => Threw (Error "Network not set") k
      | Some n =>
          match seed with
          | None => Threw (Error "Seed is required") k
          | Some sd =>
              Returned tt
                (mkWalletKeyBitcoin (Some sd) (Some (fromSeed sd n)) (Some n) true)
          end
      end
  end.

End KeyManagerState.

(** ** Balances ([getBalance]) *)

(** What [getBalance] resolves to: [_totalBal.getSpendableBalance ()] for
    the wallet, [total.out.combine (total.in)] for an address, each given
    by the data it is computed from. *)
Inductive BalanceAnswer : Type :=
  | spendable_of (t : TotalBalance)
  | combined_of (ledger_out ledger_in : Balance).

(** [getBalance (addr)]; the argument may be [undefined], and the empty
    string is falsy. *)
Definition getBalance (addr : option string) (s : SyncManager)
    : Result SyncManager BalanceAnswer :=
  match addr with
  | None => Returned (spendable_of (_totalBal s)) s
  | Some a =>
      if bool_decide (a = "") then Returned (spendable_of (_totalBal s)) s
      else
        match AddressManager_get a (_addr s) with
        | None =>
            Threw (Error ("Address not valid or not processed for balance " +:+ a)) s
        | Some total => Returned (combined_of (r_out total) (r_in total)) s
        end
  end.

(** ** More of the sample wallet *)

Module SampleMore.

(** The sample wallet after the receipt and the sweep. *)
Definition funded : SyncManager :=
  fst (_processHistory Sample.keyManager [Sample.tx_receive; Sample.tx_sweep] None
         Sample.manager).

(** The sample wallet waiting for the sweep to show up in the mempool. *)
Definition waiting : SyncManager := watchTxMempool "t2" Sample.manager.

(** A node that still reports the sweep as unconfirmed. *)
Definition getTransaction (txid : string) : RpcResult Tx :=
  if bool_decide (txid = "t2") then rpc_ok Sample.tx_sweep
  else if bool_decide (txid = "t1") then rpc_ok Sample.tx_receive
  else rpc_fail "No such mempool or blockchain transaction".

(** The entry of the sweep. *)
Definition sweep_entry : TxEntry :=
  mkTxEntry "t2" ["bcrt1qmine"] ["bcrt1qtheirs"] 30000 0 0 UNKNOWN [(70000, false)].

(** A table of networks in the manner of [bitcoin.networks]. *)
Definition networks (name : string) : option string :=
  if bool_decide (name = "bitcoin") then Some "bc"
  else if bool_decide (name = "testnet") then Some "tb"
  else if bool_decide (name = "regtest") then Some "bcrt"
  else None.

Definition fromSeed (seed network : string) : string := network +:+ ":" +:+ seed.

Definition key : WalletKeyBitcoin (Seed := string) (Network := string) (Bip32 := string) :=
  mkWalletKeyBitcoin None None (Some "bcrt") false.

(** A node that knows one raw transaction. *)
Definition fetch (txid : string) : RpcResult string :=
  if bool_decide (txid = "t1") then rpc_ok "0200000001" else rpc_fail "not found".

End SampleMore.

(** * Properties *)

(** ** Transaction state *)

(** C5. [_getTxState] answers [mempool] exactly when the height is [0],
    [confirmed] exactly when the height is not [0] and the depth
    [currentBlock.current - tx.height] has reached [minBlockConfirm], and
    [pending] in every other case. *)
Theorem getTxState_classification (tx : Tx) (s : SyncManager) :
  (_getTxState tx s = mempool <-> tx_height tx = 0)
  /\ (_getTxState tx s = confirmed <->
        tx_height tx <> 0
        /\ minBlockConfirm s <= blk_current (currentBlock s) - tx_height tx)
  /\ (_getTxState tx s = pending <->
        ~ tx_height tx = 0
        /\ ~ (tx_height tx <> 0
              /\ minBlockConfirm s <= blk_current (currentBlock s) - tx_height tx)).
Proof.
  unfold _getTxState.
  destruct (decide (tx_height tx = 0)) as [H0 | H0].
  - rewrite bool_decide_eq_true_2 by assumption.
    repeat split; intros; try discriminate; try tauto.
  - rewrite bool_decide_eq_false_2 by assumption.
    destruct (decide (minBlockConfirm s <= blk_current (currentBlock s) - tx_height tx))
      as [Hc | Hc].
    + rewrite bool_decide_eq_true_2 by assumption.
      repeat split; intros; try discriminate; try tauto.
    + rewrite bool_decide_eq_false_2 by assumption.
      repeat split; intros; try discriminate; try tauto.
Qed.

(** ** The mempool watch list *)

Lemma indexOf_lower (x : string) (l : list string) : -1 <= indexOf x l.
Proof.
  induction l as [| y l IH]; simpl; [lia |].
  repeat case_bool_decide; lia.
Qed.

Lemma indexOf_found (x : string) (l : list string) :
  0 <= indexOf x l <-> x ∈ l.
Proof.
  induction l as [| y l IH]; simpl.
  - split; [lia | intros H; inversion H].
  - rewrite elem_of_cons. pose proof (indexOf_lower x l).
    repeat case_bool_decide; split; intros; try tauto; try lia.
Qed.

Lemma indexOf_lookup (x : string) (l : list string) :
  x ∈ l -> l !! Z.to_nat (indexOf x l) = Some x.
Proof.
  induction l as [| y l IH]; simpl; intros Hin.
  - inversion Hin.
  - case_bool_decide as Hxy; [subst; reflexivity |].
    apply elem_of_cons in Hin as [-> | Hin]; [congruence |].
    pose proof (proj2 (indexOf_found x l) Hin) as Hge.
    rewrite bool_decide_eq_true_2 by assumption.
    replace (Z.to_nat (indexOf x l + 1)) with (S (Z.to_nat (indexOf x l))) by lia.
    simpl. auto.
Qed.

Lemma delete_NoDup (l : list string) (i : nat) :
  NoDup l -> NoDup (delete i l).
Proof.
  intros Hnd. eapply sublist_NoDup; eauto using sublist_delete.
Qed.

Lemma delete_removes (l : list string) (i : nat) (x : string) :
  NoDup l -> l !! i = Some x -> x ∉ delete i l.
Proof.
  revert i. induction l as [| y l IH]; intros i Hnd Hi; [discriminate |].
  apply NoDup_cons in Hnd as [Hy Hnd].
  destruct i as [| i]; simpl in *.
  - congruence.
  - rewrite not_elem_of_cons. split.
    + intros ->. apply Hy. eapply list_elem_of_lookup_2; eauto.
    + eauto.
Qed.

Lemma delete_keeps (l : list string) (i : nat) (x y : string) :
  l !! i = Some x -> y <> x -> (y ∈ delete i l <-> y ∈ l).
Proof.
  revert i. induction l as [| z l IH]; intros i Hi Hne; [discriminate |].
  destruct i as [| i]; simpl in *.
  - injection Hi as ->. rewrite elem_of_cons. tauto.
  - rewrite !elem_of_cons. rewrite (IH i) by assumption. tauto.
Qed.

Lemma emitted_app (event : string) (tr1 tr2 : list Effect) :
  emitted event (tr1 ++ tr2) = (emitted event tr1 + emitted event tr2)%nat.
Proof.
  induction tr1 as [| e tr1 IH]; simpl; [reflexivity |].
  destruct e; rewrite IH; lia.
Qed.

Lemma tx_mempool_event_inj (a b : string) :
  "tx:mempool:" +:+ a = "tx:mempool:" +:+ b -> a = b.
Proof. simpl. intros H. injection H. auto. Qed.

(** Both calls keep the list free of duplicates and keep the account:
    emissions so far plus the pending registration grow by at most one per
    call of [watchTxMempool (txid)]. *)
Lemma run_call_account (txid : string) (c : WatchCall) (s : SyncManager) :
  NoDup (_tx_events s) ->
  NoDup (_tx_events (run_call s c))
  /\ (emitted ("tx:mempool:" +:+ txid) (effects (run_call s c))
      + registered txid (run_call s c)
      <= emitted ("tx:mempool:" +:+ txid) (effects s) + registered txid s
         + watch_calls txid [c])%nat.
Proof.
  intros Hnd. destruct c as [t | tx]; cbn [run_call watch_calls].
  - unfold watchTxMempool. case_bool_decide as Hin.
    + split; [assumption | lia].
    + cbn [_tx_events effects set_tx_events]. split.
      * apply NoDup_app. repeat split; [assumption | | apply NoDup_singleton].
        intros x Hx Hx'. apply list_elem_of_singleton in Hx'. subst. tauto.
      * unfold registered. cbn [_tx_events set_tx_events].
        repeat case_bool_decide; try lia.
        exfalso. rewrite elem_of_app, list_elem_of_singleton in H. 
        destruct H; [tauto | congruence].
  - unfold _emitTxEvent.
    destruct (bool_decide (e_height tx = 0) && bool_decide (0 <= indexOf (e_txid tx) (_tx_events s)))
      eqn:Hc; [| split; [assumption | lia]].
    apply andb_true_iff in Hc as [_ Hidx]. apply bool_decide_eq_true in Hidx.
    apply indexOf_found in Hidx. pose proof (indexOf_lookup _ _ Hidx) as Hlk.
    cbn [_tx_events effects perform set_tx_events]. split.
    + apply delete_NoDup; assumption.
    + rewrite emitted_app. unfold registered. cbn [_tx_events perform set_tx_events emitted].
      destruct (decide (e_txid tx = txid)) as [<- | Hne].
      * rewrite (bool_decide_eq_true_2 (_ = _)) by reflexivity.
        rewrite (bool_decide_eq_false_2 (_ ∈ delete _ _))
          by (apply delete_removes; assumption).
        rewrite (bool_decide_eq_true_2 (_ ∈ _tx_events s)) by assumption. lia.
      * rewrite (bool_decide_eq_false_2 (_ = _))
          by (intros Heq; apply tx_mempool_event_inj in Heq; congruence).
        assert (Hiff : txid ∈ delete (Z.to_nat (indexOf (e_txid tx) (_tx_events s))) (_tx_events s)
                       <-> txid ∈ _tx_events s)
          by (eapply delete_keeps; [exact Hlk | congruence]).
        repeat case_bool_decide; try lia; tauto.
Qed.

(** C8. On a watch list without duplicates (the constructor starts from
    the empty list), registering a txid that is already registered changes
    nothing, and over any sequence of calls of [watchTxMempool] and
    [_emitTxEvent] the event [tx:mempool:<txid>] is emitted at most once per
    registration: the emissions added by the sequence, plus a registration
    still pending at its end, never exceed a registration pending at its
    start plus the calls [watchTxMempool (txid)] in it. *)
Theorem tx_mempool_event_at_most_once
    (txid : string) (cs : list WatchCall) (s : SyncManager) :
  NoDup (_tx_events s) ->
  (txid ∈ _tx_events s -> watchTxMempool txid s = s)
  /\ NoDup (_tx_events (run_calls cs s))
  /\ (emitted ("tx:mempool:" +:+ txid) (effects (run_calls cs s))
      + registered txid (run_calls cs s)
      <= emitted ("tx:mempool:" +:+ txid) (effects s) + registered txid s
         + watch_calls txid cs)%nat.
Proof.
  intros Hnd. split.
  - intros Hin. unfold watchTxMempool. rewrite bool_decide_eq_true_2; auto.
  - revert s Hnd. induction cs as [| c cs IH]; intros s Hnd.
    + simpl. split; [assumption | lia].
    + destruct (run_call_account txid c s Hnd) as [Hnd' Hacc].
      destruct (IH (run_call s c) Hnd') as [Hnd'' Hacc'].
      unfold run_calls in *. cbn [fold_left]. split; [assumption |].
      assert (watch_calls txid (c :: cs)
              = (watch_calls txid [c] + watch_calls txid cs)%nat) as ->
        by (destruct c; simpl; lia).
      lia.
Qed.

(** Registered twice, found in the mempool twice: one event. *)
Lemma tx_mempool_event_at_most_once_witness :
  let entry := mkTxEntry "t9" [] [] 0 0 0 UNKNOWN [] in
  let cs := [call_watchTxMempool "t9"; call_watchTxMempool "t9";
             call_emitTxEvent entry; call_emitTxEvent entry] in
  NoDup (_tx_events Sample.manager)
  /\ (emitted ("tx:mempool:" +:+ "t9") (effects (run_calls cs Sample.manager))
      + registered "t9" (run_calls cs Sample.manager)
      <= emitted ("tx:mempool:" +:+ "t9") (effects Sample.manager)
         + registered "t9" Sample.manager + watch_calls "t9" cs)%nat.
Proof.
  intros entry cs.
  assert (H : NoDup (_tx_events Sample.manager)) by (vm_compute; constructor).
  split; [exact H |].
  exact (proj2 (proj2 (tx_mempool_event_at_most_once "t9" cs Sample.manager H))).
Defined.

(** ** The watched script-hash list *)

Lemma AddressWatch_default_max_nonzero (cfg : option Z) :
  AddressWatch_default_max cfg <> 0.
Proof.
  unfold AddressWatch_default_max. destruct cfg as [n |]; [| lia].
  case_bool_decide; lia.
Qed.

Lemma watchAddress_keeps_max
    (pv : Provider) (scriptHash : string) (c : Chain) (w : AddressWatch) :
  aw_maxScriptWatch (Result_state (AddressWatch_watchAddress pv scriptHash c w))
  = aw_maxScriptWatch w.
Proof.
  unfold AddressWatch_watchAddress.
  destruct (rpc_subscribeToAddress pv scriptHash) as [b | e]; [| reflexivity].
  destruct (BalHash_message b); reflexivity.
Qed.



(** ** Processing items: what does not change and what is handed back *)

Section Items.

Context (keyManager : KeyManager).

Lemma processUtxo_acc
    (addrObj : option ScriptHashOfPath) (io : InOut) (st : TxState) (fee : Z)
    (l : list Utxo) (s : SyncManager) (acc : list Utxo) :
  fold_left
    (fun (acc : SyncManager * list Utxo) utxo =>
       let '(s, res) := acc in
       let '(s, utxo) := _processUtxo_item addrObj io st fee s utxo in
       (s, res ++ [utxo]))
    l (s, acc)
  = let '(s', res) :=
      fold_left
        (fun (acc : SyncManager * list Utxo) utxo =>
           let '(s, res) := acc in
           let '(s, utxo) := _processUtxo_item addrObj io st fee s utxo in
           (s, res ++ [utxo]))
        l (s, []) in
    (s', acc ++ res).
Proof.
  revert s acc. induction l as [| u l IH]; intros s acc; cbn [fold_left].
  - rewrite app_nil_r. reflexivity.
  - destruct (_processUtxo_item addrObj io st fee s u) as [s1 u'].
    rewrite (IH s1 (acc ++ [u'])), (IH s1 ([] ++ [u'])).
    destruct (fold_left _ l (s1, [])) as [s2 res].
    rewrite <- app_assoc. reflexivity.
Qed.

Lemma processUtxo_nil (io : InOut) (st : TxState) (fee : Z) (path : option string) (s : SyncManager) :
  _processUtxo keyManager [] io st fee path s = (s, []).
Proof. reflexivity. Qed.

Lemma processUtxo_cons
    (u : Utxo) (l : list Utxo) (io : InOut) (st : TxState) (fee : Z)
    (path : option string) (s : SyncManager) :
  _processUtxo keyManager (u :: l) io st fee path s
  = let '(s1, u') := _processUtxo_item (addrObj_of_path keyManager path) io st fee s u in
    let '(s2, res) := _processUtxo keyManager l io st fee path s1 in
    (s2, u' :: res).
Proof.
  unfold _processUtxo. cbn [fold_left].
  destruct (_processUtxo_item _ io st fee s u) as [s1 u'].
  rewrite processUtxo_acc.
  destruct (fold_left _ l (s1, [])) as [s2 res]. reflexivity.
Qed.

End Items.

Ltac item_cases :=
  unfold _processUtxo_item;
  repeat match goal with
    | |- context [match ?x with _ => _ end] =>
        lazymatch x with
        | context [match _ with _ => _ end] => fail
        | _ => destruct x eqn:?
        end
    end.

Lemma outpoint_own_addr (io : InOut) (b : bool) (u : Utxo) :
  outpoint io (Utxo_with_own_addr b u) = outpoint io u.
Proof. destruct io; reflexivity. Qed.

Lemma Balance_getTx_addTxid (st : TxState) (p : string) (v : Z) (b : Balance) :
  is_Some (Balance_getTx st p (Balance_addTxid st p v b)).
Proof.
  unfold Balance_getTx, Balance_addTxid.
  destruct st; cbn; rewrite lookup_insert_eq; eauto.
Qed.

Lemma Balance_getTx_addTxid_mono
    (st st' : TxState) (p p' : string) (v : Z) (b : Balance) :
  is_Some (Balance_getTx st' p' b) ->
  is_Some (Balance_getTx st' p' (Balance_addTxid st p v b)).
Proof.
  unfold Balance_getTx, Balance_addTxid.
  destruct st, st'; cbn; try tauto.
  all: intros H; destruct (decide (p = p')) as [-> | Hne];
    [rewrite lookup_insert_eq; eauto | rewrite lookup_insert_ne by assumption; assumption].
Qed.

Lemma ledger_le_refl (r : AddrRecord) : ledger_le r r.
Proof. intros io st p H. exact H. Qed.

Lemma ledger_le_trans (r1 r2 r3 : AddrRecord) :
  ledger_le r1 r2 -> ledger_le r2 r3 -> ledger_le r1 r3.
Proof. intros H12 H23 io st p H. apply H23, H12, H. Qed.

Lemma ledger_le_addTxid (io : InOut) (st : TxState) (p : string) (v : Z) (r : AddrRecord) :
  ledger_le r
    (AddrRecord_with_ledger io (Balance_addTxid st p v (AddrRecord_ledger io r)) r).
Proof.
  intros io' st' p' H.
  destruct io, io'; cbn in *; try assumption.
  all: apply Balance_getTx_addTxid_mono; assumption.
Qed.

Lemma ledger_le_with_fee (b : Balance) (r : AddrRecord) :
  ledger_le r (AddrRecord_with_fee b r).
Proof. intros io st p H. destruct io; exact H. Qed.

Lemma advances_refl (ao : option ScriptHashOfPath) (s : SyncManager) : advances ao s s.
Proof.
  repeat split; auto.
  intros a r H. exists r. split; [assumption | apply ledger_le_refl].
Qed.

Lemma advances_trans (ao : option ScriptHashOfPath) (s1 s2 s3 : SyncManager) :
  advances ao s1 s2 -> advances ao s2 s3 -> advances ao s1 s3.
Proof.
  intros (Hb & Hm & Hr & Hh & Ha) (Hb' & Hm' & Hr' & Hh' & Ha').
  repeat split.
  - congruence.
  - congruence.
  - intros a. rewrite Hr'. apply Hr.
  - intros a H. apply Hh', Hh, H.
  - intros a r H. destruct (Ha a r H) as (r' & H' & Hle).
    destruct (Ha' a r' H') as (r'' & H'' & Hle').
    exists r''. split; [assumption | eapply ledger_le_trans; eassumption].
Qed.

Ltac item_simpl :=
  repeat case_bool_decide;
  unfold HdWallet_getAddress, HdWallet_addAddress, AddressManager_get,
    AddressManager_newAddress, AddressManager_set in *;
  cbn [fst snd hdWallet _addr _unspent _totalBal effects _halt _isSyncing _tx_events
       currentBlock minBlockConfirm _addressType _addrWatch provider_cache
       set_hdWallet set_addr set_unspent set_totalBal
       hd_addresses hd_purpose hd_coinType hd_gapLimit hd_ext hd_in
       am_addresses am_txs] in *;
  simplify_eq;
  try match goal with
    | H : context [<[?k := _]> _ !! ?k] |- _ => rewrite lookup_insert_eq in H
    end;
  simplify_eq.

Lemma processUtxo_item_marked
    (ao : option ScriptHashOfPath) (io : InOut) (st : TxState) (fee : Z)
    (s : SyncManager) (u : Utxo) :
  snd (_processUtxo_item ao io st fee s u) = marked ao (hdWallet s) u.
Proof.
  unfold marked, resolve_address.
  item_cases; item_simpl; try reflexivity; congruence.
Qed.

(** An item step touches nothing but the HD wallet's addresses, the
    address records, the total balance and the unspent store. *)
Lemma processUtxo_item_frame
    (ao : option ScriptHashOfPath) (io : InOut) (st : TxState) (fee : Z)
    (s : SyncManager) (u : Utxo) :
  let s' := fst (_processUtxo_item ao io st fee s u) in
  effects s' = effects s /\ _tx_events s' = _tx_events s /\ _halt s' = _halt s
  /\ am_txs (_addr s') = am_txs (_addr s).
Proof.
  item_cases; item_simpl; repeat split; reflexivity.
Qed.

(** The HD wallet after an item step: as before, or extended with the
    address derived from the path when that is the item's address. *)
Lemma processUtxo_item_hdWallet
    (ao : option ScriptHashOfPath) (io : InOut) (st : TxState) (fee : Z)
    (s : SyncManager) (u : Utxo) :
  let s' := fst (_processUtxo_item ao io st fee s u) in
  hd_addresses (hdWallet s') = hd_addresses (hdWallet s)
  \/ (exists o,
        ao = Some o /\ ai_address (sh_addr o) = u_address u
        /\ hd_addresses (hdWallet s) !! u_address u = None
        /\ hd_addresses (hdWallet s')
           = <[u_address u := sh_addr o]> (hd_addresses (hdWallet s))).
Proof.
  item_cases; item_simpl; try (left; reflexivity).
  all: right; eexists; repeat split; try eassumption; congruence.
Qed.

(** The address records after an item step: as before, or the record of
    the item's address replaced by one that has only grown. *)
Lemma processUtxo_item_addresses
    (ao : option ScriptHashOfPath) (io : InOut) (st : TxState) (fee : Z)
    (s : SyncManager) (u : Utxo) :
  let s' := fst (_processUtxo_item ao io st fee s u) in
  am_addresses (_addr s') = am_addresses (_addr s)
  \/ (exists r',
        am_addresses (_addr s') = <[u_address u := r']> (am_addresses (_addr s))
        /\ ledger_le (default AddrRecord_empty (am_addresses (_addr s) !! u_address u)) r').
Proof.
  item_cases; item_simpl; try (left; reflexivity).
  all: right; eexists; split;
    [first [reflexivity | apply insert_insert_eq] |].
  all: match goal with H : _ !! _ = _ |- _ => rewrite H end; cbn [default].
  all: repeat first
    [ apply ledger_le_refl
    | eapply ledger_le_trans; [| apply ledger_le_with_fee]
    | apply ledger_le_addTxid ].
Qed.

Lemma processUtxo_item_block
    (ao : option ScriptHashOfPath) (io : InOut) (st : TxState) (fee : Z)
    (s : SyncManager) (u : Utxo) :
  let s' := fst (_processUtxo_item ao io st fee s u) in
  currentBlock s' = currentBlock s /\ minBlockConfirm s' = minBlockConfirm s.
Proof.
  item_cases; item_simpl; split; reflexivity.
Qed.

Lemma processUtxo_item_advances
    (ao : option ScriptHashOfPath) (io : InOut) (st : TxState) (fee : Z)
    (s : SyncManager) (u : Utxo) :
  advances ao s (fst (_processUtxo_item ao io st fee s u)).
Proof.
  pose proof (processUtxo_item_block ao io st fee s u) as [Hb Hm].
  pose proof (processUtxo_item_hdWallet ao io st fee s u) as Hh.
  pose proof (processUtxo_item_addresses ao io st fee s u) as Ha.
  cbv zeta in *.
  set (s' := fst (_processUtxo_item ao io st fee s u)) in *.
  unfold advances, resolve_address, HdWallet_getAddress, AddressManager_get.
  split; [assumption |]. split; [assumption |]. split; [| split].
  - intros a. destruct Hh as [-> | (o & -> & Ho & Hnone & ->)]; [reflexivity |].
    destruct (decide (u_address u = a)) as [<- | Hne].
    + rewrite lookup_insert_eq, Hnone. rewrite bool_decide_eq_true_2 by assumption.
      reflexivity.
    + rewrite lookup_insert_ne by assumption. reflexivity.
  - intros a Hsome. destruct Hh as [-> | (o & -> & Ho & Hnone & ->)]; [assumption |].
    destruct (decide (u_address u = a)) as [<- | Hne].
    + rewrite lookup_insert_eq. eauto.
    + rewrite lookup_insert_ne by assumption. assumption.
  - intros a r Hr. destruct Ha as [-> | (r' & -> & Hle)].
    + exists r. split; [assumption | apply ledger_le_refl].
    + destruct (decide (u_address u = a)) as [<- | Hne].
      * rewrite lookup_insert_eq. exists r'. split; [reflexivity |].
        rewrite Hr in Hle. exact Hle.
      * rewrite lookup_insert_ne by assumption. exists r.
        split; [assumption | apply ledger_le_refl].
Qed.

Lemma getTx_with_ledger (io : InOut) (st : TxState) (p : string) (v : Z) (r : AddrRecord) :
  is_Some
    (Balance_getTx st p
       (AddrRecord_ledger io
          (AddrRecord_with_ledger io (Balance_addTxid st p v (AddrRecord_ledger io r)) r))).
Proof. destruct io; cbn; apply Balance_getTx_addTxid. Qed.

Lemma ledger_with_fee (io : InOut) (b : Balance) (r : AddrRecord) :
  AddrRecord_ledger io (AddrRecord_with_fee b r) = AddrRecord_ledger io r.
Proof. destruct io; reflexivity. Qed.

(** After its step an item is settled. *)
Lemma processUtxo_item_settles
    (ao : option ScriptHashOfPath) (io : InOut) (st : TxState) (fee : Z)
    (s : SyncManager) (u : Utxo) :
  settled ao io st (fst (_processUtxo_item ao io st fee s u)) u.
Proof.
  unfold settled, recorded, is_ours, resolve_address.
  item_cases; item_simpl; rewrite ?outpoint_own_addr in *.
  all: try match goal with
         | H : ai_address _ = u_address _ |- _ => rewrite H in *
         end; simplify_map_eq.
  all: (split; [eauto |]); try (intros; discriminate).
  all: intros _; (split; [eauto |]).
  all: eexists; (split; [first [eassumption | reflexivity] |]).
  all: rewrite ?ledger_with_fee; eauto using getTx_with_ledger.
Qed.



Lemma settled_advances
    (ao : option ScriptHashOfPath) (io : InOut) (st : TxState)
    (s s' : SyncManager) (u : Utxo) :
  advances ao s s' -> settled ao io st s u -> settled ao io st s' u.
Proof.
  intros (_ & _ & Hr & Hh & Ha) [[r Hrec] Hs]. unfold settled, recorded, is_ours in *.
  destruct (Ha _ _ Hrec) as (r' & Hrec' & Hle). split; [eauto |].
  rewrite Hr. intros Hours. destruct (Hs Hours) as [Hk (r0 & Hr0 & Hp)].
  split; [auto |]. exists r'. split; [assumption |].
  assert (r0 = r) as -> by congruence. apply Hle, Hp.
Qed.

Lemma marked_advances (ao : option ScriptHashOfPath) (s s' : SyncManager) (u : Utxo) :
  advances ao s s' -> marked ao (hdWallet s') u = marked ao (hdWallet s) u.
Proof. intros (_ & _ & Hr & _). unfold marked. rewrite Hr. reflexivity. Qed.

Lemma getTxState_advances (ao : option ScriptHashOfPath) (s s' : SyncManager) (tx : Tx) :
  advances ao s s' -> _getTxState tx s' = _getTxState tx s.
Proof. intros (Hb & Hm & _). unfold _getTxState. rewrite Hb, Hm. reflexivity. Qed.

Lemma tx_settled_advances (ao : option ScriptHashOfPath) (s s' : SyncManager) (tx : Tx) :
  advances ao s s' -> tx_settled ao s tx -> tx_settled ao s' tx.
Proof.
  intros Hadv [Ho Hi]. unfold tx_settled.
  rewrite (getTxState_advances ao s s' tx Hadv).
  split; eapply Forall_impl; eauto using settled_advances.
Qed.

Lemma entry_against_advances (ao : option ScriptHashOfPath) (s s' : SyncManager) (tx : Tx) :
  advances ao s s' -> entry_against ao (hdWallet s') tx = entry_against ao (hdWallet s) tx.
Proof.
  intros Hadv. unfold entry_against.
  f_equal; apply map_ext; intros; apply marked_advances; assumption.
Qed.

(** A step that leaves the block data, the HD wallet and the address
    records alone advances. *)
Lemma advances_same (ao : option ScriptHashOfPath) (s s' : SyncManager) :
  currentBlock s' = currentBlock s -> minBlockConfirm s' = minBlockConfirm s ->
  hdWallet s' = hdWallet s -> am_addresses (_addr s') = am_addresses (_addr s) ->
  advances ao s s'.
Proof.
  intros Hb Hm Hh Ha. unfold advances, AddressManager_get. rewrite Hh, Ha.
  repeat split; auto.
  intros a r H. exists r. split; [assumption | apply ledger_le_refl].
Qed.

Section Lists.

Context (keyManager : KeyManager).

(** What [_processUtxo] hands back and what it leaves behind. *)
Lemma processUtxo_spec
    (l : list Utxo) (io : InOut) (st : TxState) (fee : Z)
    (path : option string) (s : SyncManager) :
  let ao := addrObj_of_path keyManager path in
  let s' := fst (_processUtxo keyManager l io st fee path s) in
  snd (_processUtxo keyManager l io st fee path s) = map (marked ao (hdWallet s)) l
  /\ advances ao s s'
  /\ Forall (settled ao io st s') l
  /\ effects s' = effects s /\ _tx_events s' = _tx_events s /\ _halt s' = _halt s
  /\ am_txs (_addr s') = am_txs (_addr s).
Proof.
  cbv zeta. revert s. induction l as [| u l IH]; intros s.
  - rewrite processUtxo_nil. cbn [fst snd map].
    split; [reflexivity |]. split; [apply advances_refl |]. split; [constructor |].
    repeat split; reflexivity.
  - rewrite processUtxo_cons.
    pose proof (processUtxo_item_marked (addrObj_of_path keyManager path) io st fee s u) as Hm.
    pose proof (processUtxo_item_advances (addrObj_of_path keyManager path) io st fee s u) as Ha.
    pose proof (processUtxo_item_settles (addrObj_of_path keyManager path) io st fee s u) as Hs.
    pose proof (processUtxo_item_frame (addrObj_of_path keyManager path) io st fee s u)
      as (He & Ht & Hh & Hx).
    destruct (_processUtxo_item _ io st fee s u) as [s1 u']. cbn [fst snd] in *.
    specialize (IH s1). destruct IH as (IHm & IHa & IHs & IHe & IHt & IHh & IHx).
    destruct (_processUtxo keyManager l io st fee path s1) as [s2 res]. cbn [fst snd] in *.
    split; [| split; [| split]].
    + cbn [map]. rewrite Hm, IHm. f_equal. apply map_ext. intros.
      apply marked_advances. assumption.
    + eapply advances_trans; eassumption.
    + constructor; [eapply settled_advances; eassumption | assumption].
    + repeat split; congruence.
Qed.


End Lists.

Lemma unspent_process_calls_app (tr1 tr2 : list Effect) :
  unspent_process_calls (tr1 ++ tr2)
  = (unspent_process_calls tr1 + unspent_process_calls tr2)%nat.
Proof.
  induction tr1 as [| e tr1 IH]; cbn; [reflexivity |].
  destruct e; rewrite ?IH; reflexivity.
Qed.

Lemma emitTxEvent_frame (tx : TxEntry) (s : SyncManager) :
  let s' := _emitTxEvent tx s in
  _addr s' = _addr s /\ _totalBal s' = _totalBal s /\ _unspent s' = _unspent s
  /\ hdWallet s' = hdWallet s /\ currentBlock s' = currentBlock s
  /\ minBlockConfirm s' = minBlockConfirm s /\ _halt s' = _halt s
  /\ unspent_process_calls (effects s') = unspent_process_calls (effects s).
Proof.
  unfold _emitTxEvent. destruct (_ && _); cbn; repeat split; try reflexivity.
  rewrite unspent_process_calls_app. cbn. lia.
Qed.

Lemma emitTxEvents_frame (es : list TxEntry) (s : SyncManager) :
  let s' := fold_left (fun s tx => _emitTxEvent tx s) es s in
  _addr s' = _addr s /\ _totalBal s' = _totalBal s /\ _unspent s' = _unspent s
  /\ hdWallet s' = hdWallet s /\ currentBlock s' = currentBlock s
  /\ minBlockConfirm s' = minBlockConfirm s /\ _halt s' = _halt s
  /\ unspent_process_calls (effects s') = unspent_process_calls (effects s).
Proof.
  cbv zeta. revert s. induction es as [| e es IH]; intros s; cbn [fold_left].
  - repeat split; reflexivity.
  - destruct (IH (_emitTxEvent e s)) as (H1 & H2 & H3 & H4 & H5 & H6 & H7 & H8).
    destruct (emitTxEvent_frame e s) as (G1 & G2 & G3 & G4 & G5 & G6 & G7 & G8).
    repeat split; congruence.
Qed.

Section History.

Context (keyManager : KeyManager).

(** What the loop body of [_processHistory] does for one transaction. *)
Lemma processHistory_tx_spec (path : option string) (s : SyncManager) (tx : Tx) :
  let ao := addrObj_of_path keyManager path in
  let s' := fst (_processHistory_tx keyManager path s tx) in
  let e := snd (_processHistory_tx keyManager path s tx) in
  e = entry_against ao (hdWallet s) tx
  /\ advances ao s s'
  /\ tx_settled ao s' tx
  /\ am_txs (_addr s') = <[e_txid e := e]> (am_txs (_addr s))
  /\ _halt s' = _halt s
  /\ unspent_process_calls (effects s') = unspent_process_calls (effects s).
Proof.
  cbv zeta. unfold _processHistory_tx.
  pose proof (processUtxo_spec keyManager (tx_out tx) dir_out (_getTxState tx s)
                (tx_fee tx) path s) as H1.
  cbv zeta in H1.
  destruct (_processUtxo keyManager (tx_out tx) dir_out _ _ path s) as [s1 outs].
  cbn [fst snd] in H1. destruct H1 as (Ho & Ha1 & Hs1 & He1 & Ht1 & Hh1 & Hx1).
  pose proof (processUtxo_spec keyManager (tx_in tx) dir_in (_getTxState tx s) 0 path s1)
    as H2.
  cbv zeta in H2.
  destruct (_processUtxo keyManager (tx_in tx) dir_in _ _ path s1) as [s2 ins].
  cbn [fst snd] in H2. destruct H2 as (Hi & Ha2 & Hs2 & He2 & Ht2 & Hh2 & Hx2).
  set (ao := addrObj_of_path keyManager path) in *.
  assert (Hins : ins = map (marked ao (hdWallet s)) (tx_in tx)).
  { rewrite Hi. apply map_ext. intros. apply marked_advances. assumption. }
  set (e := _processHistory_entry tx outs ins).
  set (s2' := if bool_decide (e_height e = 0)
              then perform (emit "new-tx" (pl_entry e)) s2 else s2).
  cbn [fst snd].
  assert (Ha3 : advances ao s2 (set_addr (AddressManager_storeTx e (_addr s2')) s2')).
  { apply advances_same; subst s2'; destruct (bool_decide _); reflexivity. }
  assert (Ha : advances ao s (set_addr (AddressManager_storeTx e (_addr s2')) s2')).
  { eapply advances_trans; [exact Ha1 |]. eapply advances_trans; eassumption. }
  split; [| split; [| split; [| split; [| split]]]].
  - subst e. unfold entry_against. rewrite Ho, Hins. reflexivity.
  - exact Ha.
  - unfold tx_settled. rewrite (getTxState_advances ao _ _ tx Ha). split.
    + eapply Forall_impl; [exact Hs1 |]. intros u Hu.
      eapply settled_advances; [| exact Hu]. eapply advances_trans; eassumption.
    + eapply Forall_impl; [exact Hs2 |]. intros u Hu.
      eapply settled_advances; [exact Ha3 | exact Hu].
  - cbn. subst s2'. destruct (bool_decide _); cbn; congruence.
  - cbn. subst s2'. destruct (bool_decide _); cbn; congruence.
  - cbn. subst s2'. destruct (bool_decide _); cbn [effects perform].
    + rewrite unspent_process_calls_app. cbn. rewrite He2, He1. lia.
    + congruence.
Qed.


Lemma processHistory_loop_acc
    (path : option string) (l : list Tx) (s : SyncManager) (acc : list TxEntry) :
  fold_left
    (fun (acc : SyncManager * list TxEntry) tx =>
       let '(s, newHistory) := acc in
       let '(s, entry) := _processHistory_tx keyManager path s tx in
       (s, newHistory ++ [entry]))
    l (s, acc)
  = let '(s', res) := _processHistory_loop keyManager l path s in (s', acc ++ res).
Proof.
  unfold _processHistory_loop.
  revert s acc. induction l as [| tx l IH]; intros s acc; cbn [fold_left].
  - rewrite app_nil_r. reflexivity.
  - destruct (_processHistory_tx keyManager path s tx) as [s1 e].
    rewrite (IH s1 (acc ++ [e])), (IH s1 ([] ++ [e])).
    destruct (fold_left _ l (s1, [])) as [s2 res].
    rewrite <- app_assoc. reflexivity.
Qed.

Lemma processHistory_loop_cons
    (tx : Tx) (l : list Tx) (path : option string) (s : SyncManager) :
  _processHistory_loop keyManager (tx :: l) path s
  = let '(s1, e) := _processHistory_tx keyManager path s tx in
    let '(s2, res) := _processHistory_loop keyManager l path s1 in
    (s2, e :: res).
Proof.
  unfold _processHistory_loop at 1. cbn [fold_left].
  destruct (_processHistory_tx keyManager path s tx) as [s1 e].
  rewrite processHistory_loop_acc.
  destruct (_processHistory_loop keyManager l path s1) as [s2 res]. reflexivity.
Qed.

Lemma processHistory_loop_spec (l : list Tx) (path : option string) (s : SyncManager) :
  let ao := addrObj_of_path keyManager path in
  let s' := fst (_processHistory_loop keyManager l path s) in
  let es := snd (_processHistory_loop keyManager l path s) in
  es = map (entry_against ao (hdWallet s)) l
  /\ advances ao s s'
  /\ Forall (tx_settled ao s') l
  /\ am_txs (_addr s') = log_all es (am_txs (_addr s))
  /\ _halt s' = _halt s
  /\ unspent_process_calls (effects s') = unspent_process_calls (effects s).
Proof.
  cbv zeta. revert s. induction l as [| tx l IH]; intros s.
  - cbn. split; [reflexivity |]. split; [apply advances_refl |].
    split; [constructor |]. repeat split; reflexivity.
  - rewrite processHistory_loop_cons.
    pose proof (processHistory_tx_spec path s tx) as Htx. cbv zeta in Htx.
    destruct (_processHistory_tx keyManager path s tx) as [s1 e]. cbn [fst snd] in Htx.
    destruct Htx as (He & Ha & Hs & Hx & Hh & Hu).
    specialize (IH s1). destruct (_processHistory_loop keyManager l path s1) as [s2 es].
    cbn [fst snd] in *. destruct IH as (IHe & IHa & IHs & IHx & IHh & IHu).
    split; [| split; [| split; [| split; [| split]]]].
    + cbn [map]. rewrite He, IHe. f_equal. apply map_ext. intros.
      apply entry_against_advances. assumption.
    + eapply advances_trans; eassumption.
    + constructor; [eapply tx_settled_advances; eassumption | assumption].
    + unfold log_all in *. cbn [fold_left]. rewrite IHx, Hx. reflexivity.
    + congruence.
    + congruence.
Qed.


(** What [_processHistory] hands back and what it leaves behind. *)
Lemma processHistory_spec (l : list Tx) (path : option string) (s : SyncManager) :
  let ao := addrObj_of_path keyManager path in
  let s' := fst (_processHistory keyManager l path s) in
  let es := snd (_processHistory keyManager l path s) in
  es = map (entry_against ao (hdWallet s)) l
  /\ advances ao s s'
  /\ Forall (tx_settled ao s') l
  /\ am_txs (_addr s') = log_all es (am_txs (_addr s))
  /\ _halt s' = _halt s
  /\ unspent_process_calls (effects s') = unspent_process_calls (effects s).
Proof.
  cbv zeta. unfold _processHistory.
  pose proof (processHistory_loop_spec l path s) as Hl. cbv zeta in Hl.
  destruct (_processHistory_loop keyManager l path s) as [s1 es]. cbn [fst snd] in *.
  destruct Hl as (He & Ha & Hs & Hx & Hh & Hu).
  destruct (emitTxEvents_frame es s1) as (F1 & F2 & F3 & F4 & F5 & F6 & F7 & F8).
  assert (Ha' : advances (addrObj_of_path keyManager path) s1
                  (fold_left (fun s tx => _emitTxEvent tx s) es s1))
    by (apply advances_same; congruence).
  split; [assumption |]. split; [eapply advances_trans; eassumption |].
  split; [| repeat split; congruence].
  eapply Forall_impl; [exact Hs |]. intros t Ht.
  eapply tx_settled_advances; eassumption.
Qed.


End History.



(** ** Direction and amount of an entry *)

Lemma marked_own_addr (ao : option ScriptHashOfPath) (h : HdWallet) (u : Utxo) :
  u_own_addr (marked ao h u) = is_ours ao h (u_address u).
Proof. unfold marked, is_ours. destruct (resolve_address ao h (u_address u)); reflexivity. Qed.

Lemma marked_value (ao : option ScriptHashOfPath) (h : HdWallet) (u : Utxo) :
  u_value (marked ao h u) = u_value u.
Proof. unfold marked. destruct (resolve_address ao h (u_address u)); reflexivity. Qed.



Lemma own_count_marked (ao : option ScriptHashOfPath) (h : HdWallet) (l : list Utxo) :
  length (List.filter u_own_addr (map (marked ao h) l))
  = length (List.filter id (map (fun u => is_ours ao h (u_address u)) l)).
Proof.
  induction l as [| u l IH]; cbn [map List.filter]; [reflexivity |].
  rewrite marked_own_addr. unfold id at 1.
  destruct (is_ours ao h (u_address u)); cbn [length]; congruence.
Qed.

Lemma filter_id_length_le (bs : list bool) :
  (length (List.filter id bs) <= length bs)%nat.
Proof.
  induction bs as [| b bs IH]; cbn; [lia |]. destruct b; cbn; lia.
Qed.

Lemma filter_id_all (bs : list bool) :
  length (List.filter id bs) = length bs <-> forallb id bs = true.
Proof.
  induction bs as [| b bs IH]; cbn; [tauto |].
  pose proof (filter_id_length_le bs).
  destruct b; cbn; [rewrite <- IH; lia |].
  split; [lia | discriminate].
Qed.

Lemma filter_id_none (bs : list bool) :
  length (List.filter id bs) = 0%nat <-> existsb id bs = false.
Proof.
  induction bs as [| b bs IH]; cbn; [tauto |].
  destruct b; cbn; [split; [lia | discriminate] | exact IH].
Qed.

(** The direction of the entry built for [tx], from the ownership of its
    outputs and inputs. *)
Lemma entry_against_direction (ao : option ScriptHashOfPath) (h : HdWallet) (tx : Tx) :
  e_direction (entry_against ao h tx)
  = own_output_direction
      (map (fun u => is_ours ao h (u_address u)) (tx_out tx))
      (map (fun u => is_ours ao h (u_address u)) (tx_in tx)).
Proof.
  unfold entry_against, _processHistory_entry. cbn [e_direction].
  unfold _processHistory_direction, own_output_direction.
  rewrite !own_count_marked.
  set (bo := map (fun u => is_ours ao h (u_address u)) (tx_out tx)).
  set (bi := map (fun u => is_ours ao h (u_address u)) (tx_in tx)).
  replace (length (tx_out tx)) with (length bo) by apply length_map.
  replace (length (tx_in tx)) with (length bi) by apply length_map.
  pose proof (filter_id_all bo) as Hao. pose proof (filter_id_all bi) as Hai.
  pose proof (filter_id_none bo) as Hno. pose proof (filter_id_none bi) as Hni.
  destruct (forallb id bo), (forallb id bi), (existsb id bo), (existsb id bi);
    repeat case_bool_decide; cbn; try reflexivity; try tauto; try lia.
  all: try (exfalso; intuition (discriminate || lia || congruence)).
Qed.

(** The [reduce] adds up exactly the outputs that count. *)
Lemma totalOutput_sum
    (ao : option ScriptHashOfPath) (h : HdWallet) (d : Direction) (l : list Utxo) :
  _processHistory_totalOutput d (map (marked ao h) l)
  = sum_values
      (List.filter (fun u => counts_towards_amount d (is_ours ao h (u_address u))) l).
Proof.
  unfold _processHistory_totalOutput, Bitcoin_zero, Bitcoin_add.
  assert (Hgen : forall acc,
    fold_left
      (fun sum u =>
         if (bool_decide (d = INCOMING) || bool_decide (d = INTERNAL)) && u_own_addr u
         then sum + u_value u
         else if bool_decide (d = OUTGOING) && negb (u_own_addr u)
         then sum + u_value u else sum)
      (map (marked ao h) l) acc
    = acc + sum_values
        (List.filter (fun u => counts_towards_amount d (is_ours ao h (u_address u))) l)).
  { induction l as [| u l IH]; intros acc; cbn [map fold_left List.filter].
    - cbn. lia.
    - rewrite IH, marked_own_addr, marked_value. unfold sum_values.
      destruct d, (is_ours ao h (u_address u));
        repeat case_bool_decide; try discriminate; try congruence; cbn; lia. }
  rewrite Hgen. lia.
Qed.

Section Entries.

Context (keyManager : KeyManager).

(** C1 (as the code has it). For every transaction processed by
    [_processHistory], where an address belongs to the wallet when the HD
    wallet knows it or it is the address derived from the path being
    synced: if all outputs and all inputs belong to the wallet the
    direction is INTERNAL; otherwise, if no input belongs to the wallet, it
    is INCOMING; otherwise, if some input and at least one output belong to
    the wallet, it is OUTGOING; otherwise it is UNKNOWN. *)
Theorem processHistory_direction (txHistory : list Tx) (path : option string) (s : SyncManager) :
  let ours := fun u => is_ours (addrObj_of_path keyManager path) (hdWallet s) (u_address u) in
  Forall2
    (fun tx entry =>
       e_direction entry
       = own_output_direction (map ours (tx_out tx)) (map ours (tx_in tx)))
    txHistory (snd (_processHistory keyManager txHistory path s)).
Proof.
  cbv zeta.
  destruct (processHistory_spec keyManager txHistory path s) as (-> & _).
  apply Forall2_fmap_r, Forall_Forall2_diag, Forall_forall.
  intros tx _. apply entry_against_direction.
Qed.

(** C6. For every transaction processed by [_processHistory], the amount
    of its entry is the sum of the values of exactly those outputs that are
    the wallet's when the direction is INCOMING or INTERNAL, and of exactly
    those that are not the wallet's when the direction is OUTGOING; no other
    output contributes. *)
Theorem processHistory_amount (txHistory : list Tx) (path : option string) (s : SyncManager) :
  let ours := fun u => is_ours (addrObj_of_path keyManager path) (hdWallet s) (u_address u) in
  Forall2
    (fun tx entry =>
       e_amount entry
       = sum_values
           (List.filter (fun u => counts_towards_amount (e_direction entry) (ours u))
              (tx_out tx)))
    txHistory (snd (_processHistory keyManager txHistory path s)).
Proof.
  cbv zeta.
  destruct (processHistory_spec keyManager txHistory path s) as (-> & _).
  apply Forall2_fmap_r, Forall_Forall2_diag, Forall_forall.
  intros tx _. unfold entry_against, _processHistory_entry. cbn [e_amount e_direction].
  apply totalOutput_sum.
Qed.

End Entries.

(** C1 (as the specification words it) fails: a transaction that spends
    an output of the wallet in full to a foreign address has an input of
    the wallet and one output, yet its entry is UNKNOWN, not OUTGOING. *)
Lemma spec_direction_fails_on_sweep :
  let ours := fun u => is_ours None Sample.hdWallet (u_address u) in
  exists entry,
    snd (_processHistory Sample.keyManager [Sample.tx_sweep] None Sample.manager) = [entry]
    /\ e_direction entry = UNKNOWN
    /\ spec_direction (map ours (tx_out Sample.tx_sweep)) (map ours (tx_in Sample.tx_sweep))
       = OUTGOING
    /\ e_direction entry
       <> spec_direction (map ours (tx_out Sample.tx_sweep)) (map ours (tx_in Sample.tx_sweep)).
Proof.
  eexists. split; [vm_compute; reflexivity |].
  split; [reflexivity |]. split; [vm_compute; reflexivity |].
  vm_compute. discriminate.
Qed.

(** ** Replaying a history *)





Section Replay.

Context (keyManager : KeyManager).



End Replay.


(** ** Scanning paths *)

Section Sync.

Context (keyManager : KeyManager) (provider : Provider).

(** A failed history request leaves the state as it was. *)
Lemma getAddressHistory_fail_state
    (cache : bool) (scriptHash err : string) (s : SyncManager) :
  fst (Provider_getAddressHistory provider cache scriptHash s) = rpc_fail err ->
  Provider_getAddressHistory provider cache scriptHash s = (rpc_fail err, s).
Proof.
  unfold Provider_getAddressHistory.
  destruct (if cache then provider_cache s !! scriptHash else None); cbn; [discriminate |].
  destruct (rpc_getAddressHistory provider scriptHash); cbn; [discriminate |].
  congruence.
Qed.

(** C3 (as the code has it). When the history request for the path under
    the scan cursor fails with a transport error, [_processPath] logs the
    error and answers [stop]; the scan of the chain ends there as stopped,
    however much of it was left: the cursor stays on that path, its gap
    counter is not incremented, and the trace gains the log line and the
    [synced-path] event (with [hasTx] false) of that one path only. *)
Theorem processPath_failure_stops_scan
    (fuel : nat) (c : Chain) (s : SyncManager) (err : string) :
  let cur := HdWallet_cursor c (hdWallet s) in
  let path := HdWallet_path (hdWallet s) c (c_index cur) in
  let scriptHash := sh_hash (pathToScriptHash keyManager path (_addressType s)) in
  let logged := perform (console_log "failed to get address history" (Error err)) s in
  _halt s = false ->
  (c_gap cur < hd_gapLimit (hdWallet s))%nat ->
  fst (Provider_getAddressHistory provider true scriptHash s) = rpc_fail err ->
  _processPath keyManager provider path s = (logged, stop)
  /\ exists s',
       HdWallet_scanChain (S fuel) (syncAccount_visit keyManager provider) c s
       = (s', scan_stopped)
       /\ HdWallet_cursor c (hdWallet s') = cur
       /\ effects s'
          = effects s
            ++ [console_log "failed to get address history" (Error err);
                emit "synced-path"
                  (pl_synced_path c path false (mkSyncState c path (c_index cur) (c_gap cur)))].
Proof.
  cbv zeta. intros Hhalt Hgap Hfail.
  apply getAddressHistory_fail_state in Hfail.
  assert (Hpath : _processPath keyManager provider
                    (HdWallet_path (hdWallet s) c (c_index (HdWallet_cursor c (hdWallet s)))) s
                  = (perform (console_log "failed to get address history" (Error err)) s, stop)).
  { unfold _processPath. rewrite Hfail. reflexivity. }
  split; [exact Hpath |].
  eexists. cbn [HdWallet_scanChain].
  rewrite bool_decide_eq_false_2 by lia.
  unfold syncAccount_visit. rewrite Hhalt. cbn [ss_path ss_addrType].
  rewrite Hpath. split; [reflexivity |]. split; [reflexivity |].
  cbn [effects perform]. rewrite <- app_assoc. reflexivity.
Qed.


End Sync.

(** The sample wallet against a provider that is down. *)
Lemma processPath_failure_stops_scan_witness :
  _halt Sample.manager = false
  /\ (c_gap (HdWallet_cursor chain_ext (hdWallet Sample.manager))
      < hd_gapLimit (hdWallet Sample.manager))%nat
  /\ fst (Provider_getAddressHistory Sample.provider_down true
            "sh:m/84'/1'/0'/0/0" Sample.manager) = rpc_fail "ECONNRESET"
  /\ _processPath Sample.keyManager Sample.provider_down "m/84'/1'/0'/0/0" Sample.manager
     = (perform (console_log "failed to get address history" (Error "ECONNRESET"))
          Sample.manager, stop).
Proof.
  assert (H1 : _halt Sample.manager = false) by reflexivity.
  assert (H2 : (c_gap (HdWallet_cursor chain_ext (hdWallet Sample.manager))
                < hd_gapLimit (hdWallet Sample.manager))%nat) by (vm_compute; lia).
  assert (H3 : fst (Provider_getAddressHistory Sample.provider_down true
                      "sh:m/84'/1'/0'/0/0" Sample.manager) = rpc_fail "ECONNRESET")
    by reflexivity.
  split; [exact H1 |]. split; [exact H2 |]. split; [exact H3 |].
  exact (proj1 (processPath_failure_stops_scan Sample.keyManager Sample.provider_down
                  3 chain_ext Sample.manager "ECONNRESET" H1 H2 H3)).
Defined.

(** C3 (as the specification words it) fails: with the provider down the
    first path is answered with [stop], not [noTx]; the scan ends stopped
    with the gap counter still 0 and index 1 never visited. *)
Lemma processPath_failure_is_not_noTx :
  let visit := syncAccount_visit Sample.keyManager Sample.provider_down in
  let r := HdWallet_eachAccount 50 visit Sample.manager in
  fst (Provider_getAddressHistory Sample.provider_down true "sh:m/84'/1'/0'/0/0" Sample.manager)
    = rpc_fail "ECONNRESET"
  /\ snd (_processPath Sample.keyManager Sample.provider_down "m/84'/1'/0'/0/0" Sample.manager)
     <> noTx
  /\ snd r = scan_stopped
  /\ HdWallet_cursor chain_ext (hdWallet (fst r)) = mkCursor 0 0
  /\ emitted "synced-path" (effects (fst r)) = 1%nat.
Proof.
  cbv zeta. split; [reflexivity |]. split; [vm_compute; discriminate |].
  split; [vm_compute; reflexivity |]. split; vm_compute; reflexivity.
Qed.


(** ** Script-hash notifications *)

Section Notifications.

Context (keyManager : KeyManager) (provider : Provider).

Lemma updateScriptHashBalance_process_calls
    (changeScriptHash : string) (changeHash : option BalHash)
    (data : list (string * BalHash)) (s : SyncManager) :
  unspent_process_calls
    (effects (Result_state
       (_updateScriptHashBalance_process keyManager provider changeScriptHash changeHash data s)))
  = unspent_process_calls (effects s).
Proof.
  revert s. induction data as [| [scripthash balHash] data IH]; intros s;
    cbn [_updateScriptHashBalance_process]; [reflexivity |].
  repeat (destruct (_ : bool); [apply IH |]).
  destruct (rpc_getMempoolTx provider scripthash) as [txHistory | err]; [| reflexivity].
  destruct (processHistory_spec keyManager txHistory None s) as (_ & _ & _ & _ & _ & Hu).
  destruct (_processHistory keyManager txHistory None s) as [s1 es]. cbn [fst] in Hu.
  rewrite IH. exact Hu.
Qed.

(** The class declares [startWatching], [watchAddress] and
    [getWatchedAddress]; [stopWatching] is none of them. *)
Lemma AddressWatch_has_no_stopWatching : AddressWatch_method "stopWatching" = None.
Proof. vm_compute. reflexivity. Qed.

(** C4 (what the code does). [AddressWatch] has no method [stopWatching],
    so every call of [_updateScriptHashBalance] rejects before its last
    statement: the reconcile pass [UnspentStore.process ()] is never
    reached, whatever notification comes in, and the listener only logs
    the failure. *)
Theorem updateScriptHashBalance_never_reaches_process
    (changeScriptHash : string) (changeHash : option BalHash) (s : SyncManager) :
  let r := _updateScriptHashBalance keyManager provider changeScriptHash changeHash s in
  Result_threw r = true
  /\ unspent_process_calls (effects (Result_state r)) = unspent_process_calls (effects s)
  /\ unspent_process_calls
       (effects (on_new_tx keyManager provider changeScriptHash changeHash s))
     = unspent_process_calls (effects s).
Proof.
  cbv zeta.
  assert (Hr : Result_threw
                 (_updateScriptHashBalance keyManager provider changeScriptHash changeHash s)
               = true
               /\ unspent_process_calls
                    (effects (Result_state
                       (_updateScriptHashBalance keyManager provider
                          changeScriptHash changeHash s)))
                  = unspent_process_calls (effects s)).
  { unfold _updateScriptHashBalance.
    destruct (AddressWatch_getWatchedAddress (_addrWatch s)) as [inlist extlist].
    pose proof (updateScriptHashBalance_process_calls changeScriptHash changeHash extlist s)
      as H1.
    destruct (_updateScriptHashBalance_process keyManager provider _ _ extlist s)
      as [[] s1 | e s1]; cbn [Result_bind Result_state] in *; [| split; [reflexivity | exact H1]].
    pose proof (updateScriptHashBalance_process_calls changeScriptHash changeHash inlist s1)
      as H2.
    rewrite AddressWatch_has_no_stopWatching.
    destruct (_updateScriptHashBalance_process keyManager provider _ _ inlist s1)
      as [[] s2 | e s2]; cbn [Result_bind Result_state Result_threw] in *;
      (split; [reflexivity | congruence]). }
  destruct Hr as [Ht Hu]. split; [exact Ht |]. split; [exact Hu |].
  unfold on_new_tx. destruct (_halt s); [reflexivity |].
  destruct (_updateScriptHashBalance keyManager provider changeScriptHash changeHash s)
    as [[] s1 | e s1]; cbn [Result_threw Result_state] in *; [discriminate |].
  cbn [effects perform]. rewrite unspent_process_calls_app. cbn. lia.
Qed.

End Notifications.

(** The sample wallet watches the script hash of its first external path
    and is told its status has changed: the listener ends with the failure
    logged and without a reconcile pass. *)
Example on_new_tx_sample :
  let watching :=
    set_addrWatch
      (mkAddressWatch (mkStateDb [("sh:m/84'/1'/0'/0/0", bh_status "s1")] []) 10)
      Sample.manager in
  effects (on_new_tx Sample.keyManager Sample.provider_idle
             "sh:m/84'/1'/0'/0/0" (Some (bh_status "s2")) watching)
  = [console_log "failed to update addr balance"
       (TypeError "_addrWatch.stopWatching is not a function")].
Proof. vm_compute. reflexivity. Qed.

(** * Further properties of the code *)

(** ** Frames of the item step and of the history loop *)

Lemma same_control_refl (s : SyncManager) : same_control s s.
Proof. repeat split; reflexivity. Qed.

Lemma same_control_trans (s1 s2 s3 : SyncManager) :
  same_control s1 s2 -> same_control s2 s3 -> same_control s1 s3.
Proof.
  unfold same_control. intros H12 H23.
  destruct H12 as (A1 & A2 & A3 & A4 & A5 & A6 & A7 & A8 & A9 & A10).
  destruct H23 as (B1 & B2 & B3 & B4 & B5 & B6 & B7 & B8 & B9 & B10).
  repeat split; congruence.
Qed.

Lemma trace_extends_refl (P : Effect -> Prop) (s : SyncManager) : trace_extends P s s.
Proof. exists []. split; [rewrite app_nil_r; reflexivity | constructor]. Qed.

Lemma trace_extends_trans (P : Effect -> Prop) (s1 s2 s3 : SyncManager) :
  trace_extends P s1 s2 -> trace_extends P s2 s3 -> trace_extends P s1 s3.
Proof.
  intros (t1 & E1 & F1) (t2 & E2 & F2). exists (t1 ++ t2). split.
  - rewrite E2, E1, app_assoc. reflexivity.
  - apply Forall_app. split; assumption.
Qed.


Lemma processUtxo_item_control
    (ao : option ScriptHashOfPath) (io : InOut) (st : TxState) (fee : Z)
    (s : SyncManager) (u : Utxo) :
  same_control s (fst (_processUtxo_item ao io st fee s u)).
Proof.
  unfold same_control. item_cases; item_simpl; repeat split; reflexivity.
Qed.

Section MoreLists.

Context (keyManager : KeyManager).

Lemma processUtxo_control
    (l : list Utxo) (io : InOut) (st : TxState) (fee : Z)
    (path : option string) (s : SyncManager) :
  same_control s (fst (_processUtxo keyManager l io st fee path s)).
Proof.
  revert s. induction l as [| u l IH]; intros s.
  - rewrite processUtxo_nil. apply same_control_refl.
  - rewrite processUtxo_cons.
    pose proof (processUtxo_item_control (addrObj_of_path keyManager path) io st fee s u) as H1.
    destruct (_processUtxo_item _ io st fee s u) as [s1 u']. cbn [fst] in H1.
    specialize (IH s1).
    destruct (_processUtxo keyManager l io st fee path s1) as [s2 res]. cbn [fst] in *.
    eapply same_control_trans; eassumption.
Qed.

(** The trace and the flags across the loop body for one transaction. *)
Lemma processHistory_tx_trace (path : option string) (s : SyncManager) (tx : Tx) :
  let s' := fst (_processHistory_tx keyManager path s tx) in
  let e := snd (_processHistory_tx keyManager path s tx) in
  effects s' = effects s ++ (if in_mempool e then [emit "new-tx" (pl_entry e)] else [])
  /\ _tx_events s' = _tx_events s
  /\ same_control s s'.
Proof.
  cbv zeta. unfold _processHistory_tx.
  pose proof (processUtxo_spec keyManager (tx_out tx) dir_out (_getTxState tx s)
                (tx_fee tx) path s) as H1.
  pose proof (processUtxo_control (tx_out tx) dir_out (_getTxState tx s) (tx_fee tx) path s)
    as C1.
  cbv zeta in H1.
  destruct (_processUtxo keyManager (tx_out tx) dir_out _ _ path s) as [s1 outs].
  cbn [fst snd] in H1, C1. destruct H1 as (_ & _ & _ & He1 & Ht1 & _).
  pose proof (processUtxo_spec keyManager (tx_in tx) dir_in (_getTxState tx s) 0 path s1)
    as H2.
  pose proof (processUtxo_control (tx_in tx) dir_in (_getTxState tx s) 0 path s1) as C2.
  cbv zeta in H2.
  destruct (_processUtxo keyManager (tx_in tx) dir_in _ _ path s1) as [s2 ins].
  cbn [fst snd] in H2, C2. destruct H2 as (_ & _ & _ & He2 & Ht2 & _).
  assert (C : same_control s s2) by (eapply same_control_trans; eassumption).
  cbn [fst snd]. unfold in_mempool.
  destruct (bool_decide (e_height (_processHistory_entry tx outs ins) = 0)).
  - cbn [effects perform set_addr _tx_events]. split; [congruence |]. split; [congruence |].
    exact C.
  - cbn [effects set_addr _tx_events]. rewrite app_nil_r.
    split; [congruence |]. split; [congruence |]. exact C.
Qed.

Lemma processHistory_loop_trace (l : list Tx) (path : option string) (s : SyncManager) :
  let s' := fst (_processHistory_loop keyManager l path s) in
  let es := snd (_processHistory_loop keyManager l path s) in
  effects s'
  = effects s ++ map (fun e => emit "new-tx" (pl_entry e)) (List.filter in_mempool es)
  /\ _tx_events s' = _tx_events s
  /\ same_control s s'.
Proof.
  cbv zeta. revert s. induction l as [| tx l IH]; intros s.
  - cbn. rewrite app_nil_r. split; [reflexivity |]. split; [reflexivity |].
    apply same_control_refl.
  - rewrite processHistory_loop_cons.
    pose proof (processHistory_tx_trace path s tx) as Htx. cbv zeta in Htx.
    destruct (_processHistory_tx keyManager path s tx) as [s1 e]. cbn [fst snd] in Htx.
    destruct Htx as (He & Ht & Hc).
    specialize (IH s1). destruct (_processHistory_loop keyManager l path s1) as [s2 es].
    cbn [fst snd] in *. destruct IH as (IHe & IHt & IHc).
    split; [| split; [congruence | eapply same_control_trans; eassumption]].
    rewrite IHe, He. cbn [List.filter]. destruct (in_mempool e); cbn [map].
    + rewrite <- app_assoc. reflexivity.
    + rewrite app_nil_r. reflexivity.
Qed.

End MoreLists.

Lemma emitTxEvent_control (tx : TxEntry) (s : SyncManager) :
  same_control s (_emitTxEvent tx s) /\ trace_extends is_tx_mempool s (_emitTxEvent tx s).
Proof.
  unfold _emitTxEvent. destruct (_ && _).
  - split; [repeat split; reflexivity |].
    exists [emit ("tx:mempool:" +:+ e_txid tx) (pl_entry tx)]. split; [reflexivity |].
    constructor; [exists tx; reflexivity | constructor].
  - split; [apply same_control_refl | apply trace_extends_refl].
Qed.

Lemma emitTxEvents_control (es : list TxEntry) (s : SyncManager) :
  let s' := fold_left (fun s tx => _emitTxEvent tx s) es s in
  same_control s s' /\ trace_extends is_tx_mempool s s'.
Proof.
  cbv zeta. revert s. induction es as [| e es IH]; intros s; cbn [fold_left].
  - split; [apply same_control_refl | apply trace_extends_refl].
  - destruct (emitTxEvent_control e s) as [C1 T1].
    destruct (IH (_emitTxEvent e s)) as [C2 T2].
    split; [eapply same_control_trans | eapply trace_extends_trans]; eassumption.
Qed.

Lemma emitted_new_tx_mempool (tr : list Effect) :
  Forall is_tx_mempool tr -> emitted "new-tx" tr = 0%nat.
Proof.
  induction 1 as [| e tr [entry ->] _ IH]; [reflexivity |].
  cbn [emitted]. rewrite IH.
  rewrite bool_decide_eq_false_2; [reflexivity |]. cbn. discriminate.
Qed.

Lemma emitted_new_tx_map (es : list TxEntry) :
  emitted "new-tx" (map (fun e => emit "new-tx" (pl_entry e)) es) = length es.
Proof.
  induction es as [| e es IH]; [reflexivity |].
  cbn [map emitted length]. rewrite IH. rewrite bool_decide_eq_true_2 by reflexivity.
  reflexivity.
Qed.

(** ** What [_processUtxo] hands back and records *)

Lemma processUtxo_item_foreign
    (ao : option ScriptHashOfPath) (io : InOut) (st : TxState) (fee : Z)
    (s : SyncManager) (u : Utxo) :
  is_ours ao (hdWallet s) (u_address u) = false ->
  let s' := fst (_processUtxo_item ao io st fee s u) in
  hdWallet s' = hdWallet s /\ _totalBal s' = _totalBal s /\ _unspent s' = _unspent s
  /\ am_addresses (_addr s')
     = match am_addresses (_addr s) !! u_address u with
       | Some _ => am_addresses (_addr s)
       | None => <[u_address u := AddrRecord_empty]> (am_addresses (_addr s))
       end.
Proof.
  unfold is_ours, resolve_address.
  item_cases; item_simpl; intros; try discriminate.
  all: repeat split; try reflexivity.
  all: try match goal with H : _ !! _ = _ |- _ => rewrite H end; try reflexivity.
Qed.

Lemma marked_fields (ao : option ScriptHashOfPath) (h : HdWallet) (u : Utxo) :
  let r := marked ao h u in
  u_address r = u_address u /\ u_value r = u_value u
  /\ u_witness_hex r = u_witness_hex u
  /\ u_txid r = u_txid u /\ u_index r = u_index u
  /\ u_prev_txid r = u_prev_txid u /\ u_prev_index r = u_prev_index u
  /\ u_own_addr r = is_ours ao h (u_address u)
  /\ (forall ai,
        resolve_address ao h (u_address u) = Some ai ->
        u_address_public_key r = Some (ai_publicKey ai)
        /\ u_address_path r = Some (ai_path ai)).
Proof.
  cbv zeta. unfold marked, is_ours.
  destruct (resolve_address ao h (u_address u)) as [ai |] eqn:E; cbn.
  - repeat split; try reflexivity; intros; simplify_eq; reflexivity.
  - repeat split; try reflexivity; intros; discriminate.
Qed.

Section ItemLists.

Context (keyManager : KeyManager).

(** X1. [_processUtxo] hands back one item per item of the list, in the
    order of the list, with the data of the item untouched; [own_addr] is
    set exactly for the addresses of the wallet, and an owned item carries
    the public key and the path of its address. *)
Theorem processUtxo_returns_items
    (l : list Utxo) (io : InOut) (st : TxState) (fee : Z)
    (path : option string) (s : SyncManager) :
  let ao := addrObj_of_path keyManager path in
  Forall2
    (fun u r =>
       u_address r = u_address u /\ u_value r = u_value u
       /\ u_witness_hex r = u_witness_hex u
       /\ u_txid r = u_txid u /\ u_index r = u_index u
       /\ u_prev_txid r = u_prev_txid u /\ u_prev_index r = u_prev_index u
       /\ u_own_addr r = is_ours ao (hdWallet s) (u_address u)
       /\ (forall ai,
             resolve_address ao (hdWallet s) (u_address u) = Some ai ->
             u_address_public_key r = Some (ai_publicKey ai)
             /\ u_address_path r = Some (ai_path ai)))
    l (snd (_processUtxo keyManager l io st fee path s)).
Proof.
  cbv zeta.
  destruct (processUtxo_spec keyManager l io st fee path s) as (-> & _).
  apply Forall2_fmap_r, Forall_Forall2_diag, Forall_forall. intros u _.
  apply marked_fields.
Qed.

(** X2. After [_processUtxo], every address of the list has a record in
    the AddressStore, and every item of the wallet has its address known to
    the HD wallet and its outpoint recorded under [txState] in the ledger
    [inout] of its address. *)
Theorem processUtxo_records_items
    (l : list Utxo) (io : InOut) (st : TxState) (fee : Z)
    (path : option string) (s : SyncManager) :
  let ao := addrObj_of_path keyManager path in
  let s' := fst (_processUtxo keyManager l io st fee path s) in
  Forall
    (fun u =>
       is_Some (AddressManager_get (u_address u) (_addr s'))
       /\ (is_ours ao (hdWallet s) (u_address u) = true ->
           is_Some (HdWallet_getAddress (u_address u) (hdWallet s'))
           /\ recorded io st u (_addr s')))
    l.
Proof.
  cbv zeta.
  destruct (processUtxo_spec keyManager l io st fee path s) as (_ & Ha & Hs & _).
  eapply Forall_impl; [exact Hs |]. intros u [Hrec Hown]. split; [exact Hrec |].
  intros Hours. apply Hown. unfold is_ours in *.
  destruct Ha as (_ & _ & Hr & _). rewrite Hr. exact Hours.
Qed.

(** X3. A list without any item of the wallet changes no balance, no
    unspent output and no known address: [_processUtxo] only gives each
    address that had no record an empty one. *)
Theorem processUtxo_foreign_items
    (l : list Utxo) (io : InOut) (st : TxState) (fee : Z)
    (path : option string) (s : SyncManager) :
  let ao := addrObj_of_path keyManager path in
  let s' := fst (_processUtxo keyManager l io st fee path s) in
  Forall (fun u => is_ours ao (hdWallet s) (u_address u) = false) l ->
  hdWallet s' = hdWallet s /\ _totalBal s' = _totalBal s /\ _unspent s' = _unspent s
  /\ forall a,
       am_addresses (_addr s') !! a
       = match am_addresses (_addr s) !! a with
         | Some r => Some r
         | None => if bool_decide (a ∈ map u_address l) then Some AddrRecord_empty else None
         end.
Proof.
  cbv zeta. revert s. induction l as [| u l IH]; intros s Hall.
  - rewrite processUtxo_nil. cbn [fst]. repeat split; try reflexivity.
    intros a. destruct (am_addresses (_addr s) !! a); [reflexivity |].
    rewrite bool_decide_eq_false_2; [reflexivity |]. cbn. apply not_elem_of_nil.
  - apply Forall_cons in Hall as [Hu Hl]. rewrite processUtxo_cons.
    pose proof (processUtxo_item_foreign (addrObj_of_path keyManager path) io st fee s u Hu)
      as Hitem. cbv zeta in Hitem.
    destruct (_processUtxo_item _ io st fee s u) as [s1 u']. cbn [fst] in Hitem.
    destruct Hitem as (Hh & Ht & Hn & Ha).
    assert (Hl1 : Forall (fun u => is_ours (addrObj_of_path keyManager path) (hdWallet s1)
                                     (u_address u) = false) l)
      by (rewrite Hh; exact Hl).
    specialize (IH s1 Hl1).
    destruct (_processUtxo keyManager l io st fee path s1) as [s2 res]. cbn [fst] in *.
    destruct IH as (IHh & IHt & IHn & IHa).
    split; [congruence |]. split; [congruence |]. split; [congruence |].
    intros a. rewrite IHa, Ha. cbn [map].
    destruct (decide (u_address u = a)) as [<- | Hne].
    + destruct (am_addresses (_addr s) !! u_address u) as [r |] eqn:Hr.
      * rewrite Hr. reflexivity.
      * rewrite lookup_insert_eq. rewrite bool_decide_eq_true_2; [reflexivity |].
        apply elem_of_cons. left. reflexivity.
    + assert (Hlk : (match am_addresses (_addr s) !! u_address u with
                     | Some _ => am_addresses (_addr s)
                     | None => <[u_address u := AddrRecord_empty]> (am_addresses (_addr s))
                     end) !! a = am_addresses (_addr s) !! a).
      { destruct (am_addresses (_addr s) !! u_address u); [reflexivity |].
        apply lookup_insert_ne. exact Hne. }
      rewrite Hlk. destruct (am_addresses (_addr s) !! a); [reflexivity |].
      apply (f_equal (fun b : bool => if b then Some AddrRecord_empty else None)).
      apply bool_decide_ext. rewrite elem_of_cons. split; [tauto |].
      intros [Heq | Hin]; [congruence | exact Hin].
Qed.

(** X4. [_processUtxo] emits nothing and stores no transaction entry: the
    trace, the transaction log, the mempool watch list, the block data,
    the flags, the watcher, the provider cache and the scan cursors are
    what they were. *)
Theorem processUtxo_touches_only_stores
    (l : list Utxo) (io : InOut) (st : TxState) (fee : Z)
    (path : option string) (s : SyncManager) :
  let s' := fst (_processUtxo keyManager l io st fee path s) in
  effects s' = effects s /\ am_txs (_addr s') = am_txs (_addr s)
  /\ _tx_events s' = _tx_events s
  /\ currentBlock s' = currentBlock s /\ minBlockConfirm s' = minBlockConfirm s
  /\ same_control s s'.
Proof.
  cbv zeta.
  destruct (processUtxo_spec keyManager l io st fee path s)
    as (_ & (Hb & Hm & _) & _ & He & Ht & _ & Hx).
  pose proof (processUtxo_control keyManager l io st fee path s) as Hc.
  repeat split; try assumption; apply Hc.
Qed.

End ItemLists.

(** A sample list of foreign items. *)
Lemma processUtxo_foreign_items_witness :
  let s' := fst (_processUtxo Sample.keyManager [Sample.out_foreign] dir_out mempool 30000
                   None Sample.manager) in
  Forall (fun u => is_ours None (hdWallet Sample.manager) (u_address u) = false)
    [Sample.out_foreign]
  /\ _totalBal s' = _totalBal Sample.manager.
Proof.
  intros s'.
  assert (H : Forall (fun u => is_ours (addrObj_of_path Sample.keyManager None)
                                 (hdWallet Sample.manager) (u_address u) = false)
                [Sample.out_foreign])
    by (constructor; [vm_compute; reflexivity | constructor]).
  split; [exact H |].
  exact (proj1 (proj2 (processUtxo_foreign_items Sample.keyManager [Sample.out_foreign]
                         dir_out mempool 30000 None Sample.manager H))).
Defined.

(** ** What [_processHistory] returns, emits and fires *)

Lemma indexOf_app_fresh (x : string) (l : list string) :
  x ∉ l -> indexOf x (l ++ [x]) = Z.of_nat (length l).
Proof.
  induction l as [| y l IH]; intros Hnin; cbn [app indexOf length].
  - rewrite bool_decide_eq_true_2 by reflexivity. reflexivity.
  - apply not_elem_of_cons in Hnin as [Hne Hnin].
    rewrite bool_decide_eq_false_2 by assumption.
    rewrite (IH Hnin). rewrite bool_decide_eq_true_2 by lia. lia.
Qed.

Lemma delete_last_app (l : list string) (x : string) :
  delete (length l) (l ++ [x]) = l.
Proof.
  induction l as [| y l IH]; cbn; [reflexivity |]. f_equal. exact IH.
Qed.

Lemma emitted_other_name (event : string) (tr : list Effect) (P : Effect -> Prop) :
  Forall P tr ->
  (forall ev pl, P (emit ev pl) -> ev <> event) ->
  emitted event tr = 0%nat.
Proof.
  intros Hall Hne. induction Hall as [| e tr He _ IH]; [reflexivity |].
  destruct e as [ev pl | |]; cbn [emitted]; rewrite IH; [| reflexivity | reflexivity].
  rewrite bool_decide_eq_false_2; [reflexivity |]. eapply Hne. exact He.
Qed.

(** An entry whose txid is not registered changes neither the registration
    of [txid] nor the count of its event. *)
Lemma emitTxEvent_unregistered (txid : string) (e : TxEntry) (s : SyncManager) :
  txid ∉ _tx_events s ->
  (txid ∉ _tx_events (_emitTxEvent e s))
  /\ emitted ("tx:mempool:" +:+ txid) (effects (_emitTxEvent e s))
     = emitted ("tx:mempool:" +:+ txid) (effects s).
Proof.
  intros Hnin. unfold _emitTxEvent.
  destruct (bool_decide (e_height e = 0) && bool_decide (0 <= indexOf (e_txid e) (_tx_events s)))
    eqn:Hc; [| split; [assumption | reflexivity]].
  apply andb_true_iff in Hc as [_ Hidx]. apply bool_decide_eq_true in Hidx.
  apply indexOf_found in Hidx.
  cbn [_tx_events effects perform set_tx_events]. split.
  - intros Hin. apply Hnin. eapply list_elem_of_delete_inv. exact Hin.
  - rewrite emitted_app. cbn [emitted].
    rewrite bool_decide_eq_false_2; [lia |].
    intros Heq. apply tx_mempool_event_inj in Heq. congruence.
Qed.

Lemma emitTxEvents_unregistered (txid : string) (es : list TxEntry) (s : SyncManager) :
  txid ∉ _tx_events s ->
  let s' := fold_left (fun s tx => _emitTxEvent tx s) es s in
  (txid ∉ _tx_events s')
  /\ emitted ("tx:mempool:" +:+ txid) (effects s')
     = emitted ("tx:mempool:" +:+ txid) (effects s).
Proof.
  cbv zeta. revert s. induction es as [| e es IH]; intros s Hnin; cbn [fold_left].
  - split; [assumption | reflexivity].
  - destruct (emitTxEvent_unregistered txid e s Hnin) as [H1 H2].
    destruct (IH (_emitTxEvent e s) H1) as [H3 H4]. split; [assumption | congruence].
Qed.

(** A registered txid met by a mempool entry is fired once and removed. *)
Lemma emitTxEvents_fires (txid : string) (es : list TxEntry) (s : SyncManager) :
  NoDup (_tx_events s) ->
  txid ∈ _tx_events s ->
  Exists (fun e => e_txid e = txid /\ e_height e = 0) es ->
  let s' := fold_left (fun s tx => _emitTxEvent tx s) es s in
  (txid ∉ _tx_events s')
  /\ emitted ("tx:mempool:" +:+ txid) (effects s')
     = S (emitted ("tx:mempool:" +:+ txid) (effects s)).
Proof.
  cbv zeta. revert s. induction es as [| e es IH]; intros s Hnd Hin Hex; cbn [fold_left].
  - inversion Hex.
  - destruct (decide (e_txid e = txid /\ e_height e = 0)) as [[Ht Hh] | Hno].
    + assert (Hidx : 0 <= indexOf (e_txid e) (_tx_events s))
        by (apply indexOf_found; rewrite Ht; exact Hin).
      pose proof (indexOf_lookup _ _ (proj1 (indexOf_found _ _) Hidx)) as Hlk.
      assert (Hstep : (txid ∉ _tx_events (_emitTxEvent e s))
                      /\ emitted ("tx:mempool:" +:+ txid) (effects (_emitTxEvent e s))
                         = S (emitted ("tx:mempool:" +:+ txid) (effects s))).
      { unfold _emitTxEvent.
        rewrite (bool_decide_eq_true_2 _ Hh), (bool_decide_eq_true_2 _ Hidx). cbn [andb].
        cbn [_tx_events effects perform set_tx_events]. split.
        - rewrite <- Ht. apply delete_removes; assumption.
        - rewrite emitted_app. cbn [emitted]. rewrite Ht.
          rewrite bool_decide_eq_true_2 by reflexivity. lia. }
      destruct Hstep as [H1 H2].
      destruct (emitTxEvents_unregistered txid es _ H1) as [H3 H4].
      cbv zeta in H3, H4. split; [assumption | congruence].
    + apply Exists_cons in Hex as [Hhere | Hex]; [tauto |].
      assert (Hstep : NoDup (_tx_events (_emitTxEvent e s))
                      /\ (txid ∈ _tx_events (_emitTxEvent e s))
                      /\ emitted ("tx:mempool:" +:+ txid) (effects (_emitTxEvent e s))
                         = emitted ("tx:mempool:" +:+ txid) (effects s)).
      { unfold _emitTxEvent.
        destruct (bool_decide (e_height e = 0)
                  && bool_decide (0 <= indexOf (e_txid e) (_tx_events s))) eqn:Hc;
          [| repeat split; assumption].
        apply andb_true_iff in Hc as [Hh Hidx].
        apply bool_decide_eq_true in Hh. apply bool_decide_eq_true in Hidx.
        apply indexOf_found in Hidx. pose proof (indexOf_lookup _ _ Hidx) as Hlk.
        assert (Hne : e_txid e <> txid) by (intros Heq; apply Hno; split; assumption).
        cbn [_tx_events effects perform set_tx_events]. split; [| split].
        - apply delete_NoDup. assumption.
        - eapply delete_keeps; [exact Hlk | congruence | exact Hin].
        - rewrite emitted_app. cbn [emitted].
          rewrite bool_decide_eq_false_2; [lia |].
          intros Heq. apply tx_mempool_event_inj in Heq. congruence. }
      destruct Hstep as (H1 & H2 & H3).
      destruct (IH _ H1 H2 Hex) as [H4 H5]. split; [assumption | congruence].
Qed.

Lemma new_tx_events_other_name (txid : string) (es : list TxEntry) :
  emitted ("tx:mempool:" +:+ txid) (map (fun e => emit "new-tx" (pl_entry e)) es) = 0%nat.
Proof.
  apply (emitted_other_name _ _ is_new_tx).
  - apply Forall_forall. intros x Hx. apply list_elem_of_In, in_map_iff in Hx as (e & <- & _).
    exists e. reflexivity.
  - intros ev pl (e & Heq). injection Heq as -> _. cbn. discriminate.
Qed.

Section MoreHistory.

Context (keyManager : KeyManager).

(** X5. [_processHistory] returns one entry per transaction, in the order
    of the history, carrying the txid, the height and the fee of the
    transaction, the addresses of its inputs and of its outputs, and per
    output its value and whether it is the wallet's. *)
Theorem processHistory_entries_aligned
    (txHistory : list Tx) (path : option string) (s : SyncManager) :
  let ours := fun u => is_ours (addrObj_of_path keyManager path) (hdWallet s) (u_address u) in
  Forall2
    (fun tx entry =>
       e_txid entry = tx_txid tx /\ e_height entry = tx_height tx
       /\ e_fee entry = tx_fee tx
       /\ e_from_address entry = map u_address (tx_in tx)
       /\ e_to_address entry = map u_address (tx_out tx)
       /\ e_to_address_meta entry = map (fun u => (u_value u, ours u)) (tx_out tx))
    txHistory (snd (_processHistory keyManager txHistory path s)).
Proof.
  cbv zeta.
  destruct (processHistory_spec keyManager txHistory path s) as (-> & _).
  apply Forall2_fmap_r, Forall_Forall2_diag, Forall_forall. intros tx _.
  unfold entry_against, _processHistory_entry. cbn.
  repeat split; try reflexivity.
  rewrite List.map_map. apply map_ext. intros u.
  rewrite marked_value, marked_own_addr. reflexivity.
Qed.

(** The trace and the watch list across [_processHistory]. *)
Lemma processHistory_trace (txHistory : list Tx) (path : option string) (s : SyncManager) :
  let s1 := fst (_processHistory_loop keyManager txHistory path s) in
  let es := snd (_processHistory keyManager txHistory path s) in
  let s' := fst (_processHistory keyManager txHistory path s) in
  es = snd (_processHistory_loop keyManager txHistory path s)
  /\ s' = fold_left (fun s tx => _emitTxEvent tx s) es s1
  /\ effects s1
     = effects s ++ map (fun e => emit "new-tx" (pl_entry e)) (List.filter in_mempool es)
  /\ _tx_events s1 = _tx_events s
  /\ same_control s s'.
Proof.
  cbv zeta. unfold _processHistory.
  pose proof (processHistory_loop_trace keyManager txHistory path s) as Hl. cbv zeta in Hl.
  destruct (_processHistory_loop keyManager txHistory path s) as [s1 es]. cbn [fst snd] in *.
  destruct Hl as (He & Ht & Hc).
  destruct (emitTxEvents_control es s1) as [Hc' _].
  repeat split; try assumption; try reflexivity.
  all: eapply same_control_trans; eassumption.
Qed.

Lemma processHistory_new_tx_count_aux
    (txHistory : list Tx) (path : option string) (s : SyncManager) :
  emitted "new-tx" (effects (fst (_processHistory keyManager txHistory path s)))
  = (emitted "new-tx" (effects s)
     + length (List.filter (fun tx => bool_decide (tx_height tx = 0%Z)) txHistory))%nat.
Proof.
  destruct (processHistory_trace txHistory path s) as (_ & Hs' & He & _ & _).
  cbv zeta in *. rewrite Hs'.
  destruct (emitTxEvents_control (snd (_processHistory keyManager txHistory path s))
              (fst (_processHistory_loop keyManager txHistory path s)))
    as [_ (tr & Htr & Hall)].
  cbv zeta in Htr. rewrite Htr, He, !emitted_app.
  rewrite (emitted_new_tx_mempool tr) by assumption.
  rewrite emitted_new_tx_map.
  destruct (processHistory_spec keyManager txHistory path s) as (-> & _).
  assert (Hlen : forall l : list Tx,
    length (List.filter in_mempool
              (map (entry_against (addrObj_of_path keyManager path) (hdWallet s)) l))
    = length (List.filter (fun tx => bool_decide (tx_height tx = 0)) l)).
  { induction l as [| tx l IH]; [reflexivity |]. cbn [map List.filter].
    unfold in_mempool at 1. unfold entry_against at 1, _processHistory_entry. cbn [e_height].
    destruct (bool_decide (tx_height tx = 0)); cbn [length]; congruence. }
  rewrite Hlen. lia.
Qed.

(** X6. [_processHistory] emits [new-tx] once for every transaction of the
    history that is in the mempool (height 0), and for no other. *)
Theorem processHistory_new_tx_count
    (txHistory : list Tx) (path : option string) (s : SyncManager) :
  emitted "new-tx" (effects (fst (_processHistory keyManager txHistory path s)))
  = (emitted "new-tx" (effects s)
     + length (List.filter (fun tx => bool_decide (tx_height tx = 0%Z)) txHistory))%nat.
Proof. apply processHistory_new_tx_count_aux. Qed.

(** X7. A txid registered with [watchTxMempool] that the history contains
    at height 0 has its event [tx:mempool:<txid>] fired exactly once by
    [_processHistory] and is no longer registered afterwards. *)
Theorem processHistory_fires_watched
    (txid : string) (txHistory : list Tx) (path : option string) (s : SyncManager) :
  NoDup (_tx_events s) ->
  txid ∈ _tx_events s ->
  Exists (fun tx => tx_txid tx = txid /\ tx_height tx = 0) txHistory ->
  let s' := fst (_processHistory keyManager txHistory path s) in
  (txid ∉ _tx_events s')
  /\ emitted ("tx:mempool:" +:+ txid) (effects s')
     = S (emitted ("tx:mempool:" +:+ txid) (effects s)).
Proof.
  intros Hnd Hin Hex. cbv zeta.
  destruct (processHistory_trace txHistory path s) as (_ & Hs' & He & Ht & _).
  cbv zeta in *. rewrite Hs'.
  set (s1 := fst (_processHistory_loop keyManager txHistory path s)) in *.
  set (es := snd (_processHistory keyManager txHistory path s)) in *.
  assert (Hex' : Exists (fun e => e_txid e = txid /\ e_height e = 0) es).
  { subst es. destruct (processHistory_spec keyManager txHistory path s) as (-> & _).
    apply Exists_exists in Hex as (tx & Htx & Hid & Hh).
    apply Exists_exists. eexists. split.
    - apply list_elem_of_In. apply in_map. apply list_elem_of_In. exact Htx.
    - unfold entry_against, _processHistory_entry. cbn. split; assumption. }
  assert (Hnd1 : NoDup (_tx_events s1)) by (rewrite Ht; exact Hnd).
  assert (Hin1 : txid ∈ _tx_events s1) by (rewrite Ht; exact Hin).
  destruct (emitTxEvents_fires txid es s1 Hnd1 Hin1 Hex') as [H1 H2]. cbv zeta in H1, H2.
  split; [exact H1 |]. rewrite H2, He, emitted_app.
  rewrite (new_tx_events_other_name txid). lia.
Qed.

(** X9. [_processHistory] never fires [tx:mempool:<txid>] for a txid that
    is not registered, whatever the history holds. *)
Theorem processHistory_unregistered_silent
    (txid : string) (txHistory : list Tx) (path : option string) (s : SyncManager) :
  txid ∉ _tx_events s ->
  let s' := fst (_processHistory keyManager txHistory path s) in
  (txid ∉ _tx_events s')
  /\ emitted ("tx:mempool:" +:+ txid) (effects s')
     = emitted ("tx:mempool:" +:+ txid) (effects s).
Proof.
  intros Hnin. cbv zeta.
  destruct (processHistory_trace txHistory path s) as (_ & Hs' & He & Ht & _).
  cbv zeta in *. rewrite Hs'.
  set (s1 := fst (_processHistory_loop keyManager txHistory path s)) in *.
  set (es := snd (_processHistory keyManager txHistory path s)) in *.
  assert (Hnin1 : txid ∉ _tx_events s1) by (rewrite Ht; exact Hnin).
  destruct (emitTxEvents_unregistered txid es s1 Hnin1) as [H1 H2]. cbv zeta in H1, H2.
  split; [exact H1 |]. rewrite H2, He, emitted_app.
  rewrite (new_tx_events_other_name txid). lia.
Qed.

End MoreHistory.

(** X8. Registering a txid that is not yet registered and then meeting it
    in the mempool fires its event once and leaves the watch list as it
    was before the registration. *)
Theorem watch_then_emit_round_trip (e : TxEntry) (s : SyncManager) :
  e_txid e ∉ _tx_events s ->
  e_height e = 0 ->
  let s' := _emitTxEvent e (watchTxMempool (e_txid e) s) in
  _tx_events s' = _tx_events s
  /\ effects s' = effects s ++ [emit ("tx:mempool:" +:+ e_txid e) (pl_entry e)].
Proof.
  intros Hnin Hh. cbv zeta. unfold watchTxMempool.
  rewrite bool_decide_eq_false_2 by assumption.
  unfold _emitTxEvent. cbn [_tx_events set_tx_events].
  rewrite (indexOf_app_fresh _ _ Hnin).
  rewrite (bool_decide_eq_true_2 _ Hh), (bool_decide_eq_true_2 (0 <= _)) by lia.
  cbn [andb _tx_events effects perform set_tx_events].
  rewrite Nat2Z.id, delete_last_app. split; reflexivity.
Qed.

(** ** Paths, scans and [syncAccount] *)






Section Scans.

Context (keyManager : KeyManager) (provider : Provider).


Lemma getAddressHistory_frame (cache : bool) (scriptHash : string) (s : SyncManager) :
  let s' := snd (Provider_getAddressHistory provider cache scriptHash s) in
  same_flags s s' /\ effects s' = effects s /\ same_money s s'
  /\ hdWallet s' = hdWallet s /\ _tx_events s' = _tx_events s.
Proof.
  cbv zeta. unfold Provider_getAddressHistory.
  destruct (if cache then provider_cache s !! scriptHash else None);
    [repeat split; reflexivity |].
  destruct (rpc_getAddressHistory provider scriptHash); repeat split; reflexivity.
Qed.





End Scans.


Lemma syncAccount_finish_not_rejected (r : SyncManager * ScanEnd) (e : JsError) (t : SyncManager) :
  syncAccount_finish r <> sync_rejected e t.
Proof.
  unfold syncAccount_finish. destruct r as [s []]; try destruct (_halt s); discriminate.
Qed.

Section SyncMore.

Context (keyManager : KeyManager) (provider : Provider).


(** X11. A transport error on the first path to visit does not reject
    [syncAccount]: it resolves with the error logged, the scan cursors
    where they were, the address records and the total balance untouched,
    and the manager ready for the next sync. *)
Theorem syncAccount_survives_failure
    (fuel : nat) (s : SyncManager) (err : string) :
  let cur := HdWallet_cursor chain_ext (hdWallet s) in
  let path := HdWallet_path (hdWallet s) chain_ext (c_index cur) in
  let scriptHash := sh_hash (pathToScriptHash keyManager path (_addressType s)) in
  _halt s = false -> _isSyncing s = false ->
  (c_gap cur < hd_gapLimit (hdWallet s))%nat ->
  provider_cache s !! scriptHash = None ->
  rpc_getAddressHistory provider scriptHash = rpc_fail err ->
  exists s',
    syncAccount keyManager provider (S fuel) None s = sync_resolved s'
    /\ hdWallet s' = hdWallet s /\ _addr s' = _addr s /\ _totalBal s' = _totalBal s
    /\ _halt s' = false /\ _isSyncing s' = false
    /\ effects s'
       = effects s
         ++ [console_log "failed to get address history" (Error err);
             emit "synced-path"
               (pl_synced_path chain_ext path false
                  (mkSyncState chain_ext path (c_index cur) (c_gap cur)));
             unspent_process_called;
             emit "sync-end" pl_none].
Proof.
  cbv zeta. intros Hh Hs Hgap Hcache Hrpc.
  set (s0 := set_isSyncing true s).
  set (path := HdWallet_path (hdWallet s) chain_ext
                 (c_index (HdWallet_cursor chain_ext (hdWallet s)))) in *.
  assert (Hp : _processPath keyManager provider path s0
               = (perform (console_log "failed to get address history" (Error err)) s0, stop)).
  { unfold _processPath, Provider_getAddressHistory. subst s0.
    cbn [_addressType provider_cache set_isSyncing _halt].
    rewrite Hcache, Hrpc. reflexivity. }
  assert (Hscan : HdWallet_eachAccount (S fuel) (syncAccount_visit keyManager provider) s0
                  = (perform
                       (emit "synced-path"
                          (pl_synced_path chain_ext path false
                             (mkSyncState chain_ext path
                                (c_index (HdWallet_cursor chain_ext (hdWallet s)))
                                (c_gap (HdWallet_cursor chain_ext (hdWallet s))))))
                       (perform (console_log "failed to get address history" (Error err)) s0),
                     scan_stopped)).
  { unfold HdWallet_eachAccount. cbn [HdWallet_scanChain].
    change (hdWallet s0) with (hdWallet s).
    rewrite bool_decide_eq_false_2 by lia.
    unfold syncAccount_visit. change (_halt s0) with (_halt s). rewrite Hh.
    cbn [ss_path ss_addrType]. fold path. rewrite Hp. reflexivity. }
  unfold syncAccount. rewrite Hh, Hs. cbn [orb opts_restart_set]. fold s0.
  rewrite Hscan. unfold syncAccount_finish.
  change (_halt (perform _ (perform _ s0))) with (_halt s). rewrite Hh.
  eexists. split; [reflexivity |].
  subst s0. cbn. rewrite <- !app_assoc. cbn. repeat split; reflexivity.
Qed.

(** X13. [_processPath] answers [hasTx] exactly when the manager is not
    halted and the request yields a non-empty history, [noTx] exactly when
    it is not halted and the history is empty, and [stop] exactly when it
    is halted or the request fails; unless it answers [hasTx], the address
    records, the total balance and the unspent store are what they were. *)
Theorem processPath_signal (path : string) (s : SyncManager) :
  let scriptHash := sh_hash (pathToScriptHash keyManager path (_addressType s)) in
  let answer := fst (Provider_getAddressHistory provider true scriptHash s) in
  let r := _processPath keyManager provider path s in
  (snd r = hasTx <-> _halt s = false /\ exists tx txs, answer = rpc_ok (tx :: txs))
  /\ (snd r = noTx <-> _halt s = false /\ answer = rpc_ok [])
  /\ (snd r = stop <-> _halt s = true \/ exists err, answer = rpc_fail err)
  /\ (snd r <> hasTx -> same_money s (fst r)).
Proof.
  cbv zeta. unfold _processPath.
  pose proof (getAddressHistory_frame provider true
                (sh_hash (pathToScriptHash keyManager path (_addressType s))) s) as Hf.
  cbv zeta in Hf.
  destruct (Provider_getAddressHistory provider true _ s) as [[txs | err] s1];
    cbn [fst snd] in *; destruct Hf as (_ & _ & Hm & _).
  - destruct (_halt s) eqn:Hh.
    + cbn [fst snd]. split; [| split; [| split]].
      * split; [discriminate | intros [H _]; discriminate].
      * split; [discriminate | intros [H _]; discriminate].
      * split; [left; reflexivity | reflexivity].
      * intros _. exact Hm.
    + destruct txs as [| tx txs].
      * cbn [fst snd]. split; [| split; [| split]].
        -- split; [discriminate | intros [_ (tx & txs & H)]; discriminate].
        -- split; [split; reflexivity | reflexivity].
        -- split; [discriminate | intros [H | (e & H)]; discriminate].
        -- intros _. exact Hm.
      * destruct (_processHistory keyManager (tx :: txs) (Some path) s1) as [s2 es].
        cbn [fst snd]. split; [| split; [| split]].
        -- split; [intros _; split; [reflexivity | eauto] | reflexivity].
        -- split; [discriminate | intros [_ H]; discriminate].
        -- split; [discriminate | intros [H | (e & H)]; discriminate].
        -- intros H. congruence.
  - cbn [fst snd]. split; [| split; [| split]].
    + split; [discriminate | intros [_ (tx & txs & H)]; discriminate].
    + split; [discriminate | intros [_ H]; discriminate].
    + split; [intros _; right; eauto | reflexivity].
    + intros _. destruct Hm as (A & B & C). repeat split; assumption.
Qed.

(** X12. A notification is ignored when the manager is halted, or when
    its script hash is not watched, or when its status is the stored one:
    no request goes to the provider and the state is what it was.  The call
    still rejects, since [AddressWatch] has no method [stopWatching]. *)
Theorem updateScriptHashBalance_ignores
    (changeScriptHash : string) (changeHash : option BalHash) (s : SyncManager) :
  Forall
    (fun entry : string * BalHash =>
       _halt s = true \/ fst entry <> changeScriptHash
       \/ changeHash_strict_eq changeHash (snd entry) = true)
    (StateDb_getWatchedScriptHashes chain_ext (aw_state (_addrWatch s))
     ++ StateDb_getWatchedScriptHashes chain_in (aw_state (_addrWatch s))) ->
  _updateScriptHashBalance keyManager provider changeScriptHash changeHash s
  = Threw (TypeError "_addrWatch.stopWatching is not a function") s.
Proof.
  intros Hall. apply Forall_app in Hall as [Hext Hin].
  assert (Hproc : forall data,
    Forall (fun entry : string * BalHash =>
              _halt s = true \/ fst entry <> changeScriptHash
              \/ changeHash_strict_eq changeHash (snd entry) = true) data ->
    _updateScriptHashBalance_process keyManager provider changeScriptHash changeHash data s
    = Returned tt s).
  { induction 1 as [| [h b] data Hhd _ IH]; [reflexivity |].
    cbn [_updateScriptHashBalance_process fst snd] in *.
    case_bool_decide as Hne; [exact IH |].
    destruct (changeHash_strict_eq changeHash b) eqn:Heq; [exact IH |].
    destruct (_halt s) eqn:Hh; [exact IH |].
    exfalso. destruct Hhd as [Hx | [Hx | Hx]]; congruence. }
  unfold _updateScriptHashBalance, AddressWatch_getWatchedAddress.
  rewrite (Hproc _ Hext). cbn [Result_bind]. rewrite (Hproc _ Hin). cbn [Result_bind].
  rewrite AddressWatch_has_no_stopWatching. reflexivity.
Qed.

End SyncMore.

(** ** New blocks *)

Lemma perform_all_new_tx (es : list TxEntry) (s : SyncManager) :
  let s' := fold_left (fun s entry => perform (emit "new-tx" (pl_entry entry)) s) es s in
  effects s' = effects s ++ map (fun e => emit "new-tx" (pl_entry e)) es
  /\ currentBlock s' = currentBlock s /\ minBlockConfirm s' = minBlockConfirm s.
Proof.
  cbv zeta. revert s. induction es as [| e es IH]; intros s; cbn [fold_left map].
  - rewrite app_nil_r. repeat split; reflexivity.
  - destruct (IH (perform (emit "new-tx" (pl_entry e)) s)) as (H1 & H2 & H3).
    rewrite H1, H2, H3. cbn [effects perform currentBlock minBlockConfirm].
    rewrite <- app_assoc. repeat split; reflexivity.
Qed.

Lemma fetch_all_length
    (getTransaction : string -> RpcResult Tx) (txids : list string) (txs : list Tx) :
  fetch_all getTransaction txids = rpc_ok txs -> length txids = length txs.
Proof.
  revert txs. induction txids as [| t txids IH]; intros txs; cbn [fetch_all].
  - intros H. injection H as <-. reflexivity.
  - destruct (getTransaction t); [| discriminate].
    destruct (fetch_all getTransaction txids); [| discriminate].
    intros H. injection H as <-. cbn [length]. f_equal. apply IH. reflexivity.
Qed.

Section Blocks.

Context (keyManager : KeyManager) (getTransaction : string -> RpcResult Tx).

Lemma newBlock_block (s : SyncManager) :
  currentBlock (_newBlock keyManager getTransaction s) = currentBlock s
  /\ minBlockConfirm (_newBlock keyManager getTransaction s) = minBlockConfirm s.
Proof.
  unfold _newBlock. destruct (_newBlock_arr s) as [| e arr]; [split; reflexivity |].
  destruct (fetch_all getTransaction _) as [newTx | err]; [| split; reflexivity].
  destruct (processHistory_spec keyManager newTx None s) as (_ & (Hb & Hm & _) & _).
  destruct (_processHistory keyManager newTx None s) as [s1 es]. cbn [fst] in *.
  destruct (perform_all_new_tx es
              (perform unspent_process_called
                 (set_unspent (UnspentStore_process (_unspent s1)) s1))) as (_ & H2 & H3).
  cbv zeta in H2, H3. rewrite H2, H3. cbn. split; assumption.
Qed.

(** X14. [updateBlock] always stores the block it is given, and when the
    new block is not below the old one no transaction falls back: what was
    in the mempool stays there and nothing else enters it, and what was
    confirmed stays confirmed. *)
Theorem updateBlock_never_regresses (block : Block) (s : SyncManager) (tx : Tx) :
  let s' := updateBlock keyManager getTransaction block s in
  currentBlock s' = block
  /\ (_getTxState tx s = mempool <-> _getTxState tx s' = mempool)
  /\ (blk_current (currentBlock s) <= blk_current block ->
      _getTxState tx s = confirmed -> _getTxState tx s' = confirmed).
Proof.
  cbv zeta.
  assert (Hb : currentBlock (updateBlock keyManager getTransaction block s) = block
               /\ minBlockConfirm (updateBlock keyManager getTransaction block s)
                  = minBlockConfirm s).
  { unfold updateBlock. destruct (_ && _); [| split; reflexivity].
    destruct (newBlock_block (set_currentBlock block s)) as [H1 H2].
    rewrite H1, H2. split; reflexivity. }
  destruct Hb as [Hb Hm]. split; [exact Hb |].
  unfold _getTxState. rewrite Hb, Hm.
  destruct (decide (tx_height tx = 0)) as [H0 | H0].
  - rewrite !(bool_decide_eq_true_2 _ H0). split; [tauto |]. intros; discriminate.
  - rewrite !(bool_decide_eq_false_2 _ H0). split.
    + repeat case_bool_decide; split; intros; discriminate.
    + intros Hle. repeat case_bool_decide; intros; try reflexivity; try discriminate. lia.
Qed.

(** X15. When [_newBlock] has refetched its transactions, it runs the
    reconcile pass once and emits [new-tx] once for every refetched
    transaction and once more for every one of them that is still in the
    mempool. *)
Theorem newBlock_emits (s : SyncManager) (newTx : list Tx) :
  _newBlock_arr s <> [] ->
  fetch_all getTransaction (map e_txid (_newBlock_arr s)) = rpc_ok newTx ->
  let s' := _newBlock keyManager getTransaction s in
  emitted "new-tx" (effects s')
  = (emitted "new-tx" (effects s) + length newTx
     + length (List.filter (fun tx => bool_decide (tx_height tx = 0%Z)) newTx))%nat
  /\ unspent_process_calls (effects s') = S (unspent_process_calls (effects s))
  /\ length newTx = length (_newBlock_arr s).
Proof.
  intros Harr Hfetch. cbv zeta.
  assert (Hfl : length newTx = length (_newBlock_arr s)).
  { rewrite <- (List.length_map e_txid). symmetry. eapply fetch_all_length. exact Hfetch. }
  refine (let H := _ in conj (proj1 H) (conj (proj2 H) Hfl)). clear Hfl.
  unfold _newBlock.
  destruct (_newBlock_arr s) as [| e arr] eqn:Ha; [congruence |].
  rewrite Hfetch.
  pose proof (processHistory_new_tx_count_aux keyManager newTx None s) as Hcount.
  destruct (processHistory_spec keyManager newTx None s) as (Hes & _ & _ & _ & _ & Hu).
  destruct (_processHistory keyManager newTx None s) as [s1 es]. cbn [fst snd] in *.
  destruct (perform_all_new_tx es
              (perform unspent_process_called
                 (set_unspent (UnspentStore_process (_unspent s1)) s1))) as (H1 & _).
  cbv zeta in H1. rewrite H1. cbn [effects perform set_unspent].
  rewrite !emitted_app, !unspent_process_calls_app, emitted_new_tx_map.
  cbn [emitted unspent_process_calls].
  assert (Hz : unspent_process_calls (map (fun e => emit "new-tx" (pl_entry e)) es) = 0%nat)
    by (clear; induction es; [reflexivity | assumption]).
  assert (Hlen : length es = length newTx) by (rewrite Hes; apply List.length_map).
  rewrite Hz, Hcount, Hu, Hlen. split; lia.
Qed.

End Blocks.

(** ** Pause and reset *)

Section PauseReset.

Context (keyManager : KeyManager) (provider : Provider).



(** X17. [syncTransactions] with [reset] clears a pending halt before it
    syncs: on a manager that is not syncing it is never rejected, while
    without [reset] a halted manager rejects it. *)
Theorem syncTransactions_reset_clears_halt
    (resetBalance : TotalBalance -> TotalBalance)
    (fuel : nat) (opts : option SyncOpts) (s : SyncManager) :
  (_isSyncing s = false -> opts_reset_set opts = true ->
   forall e t,
     syncTransactions keyManager provider resetBalance fuel opts s <> sync_rejected e t)
  /\ (_halt s = true -> opts_reset_set opts = false ->
      exists e, syncTransactions keyManager provider resetBalance fuel opts s
                = sync_rejected e s).
Proof.
  unfold syncTransactions. split.
  - intros Hs Hr e t. rewrite Hr. unfold syncAccount, reset.
    cbn [_halt _isSyncing resumeSync set_halt set_hdWallet set_totalBal].
    rewrite Hs. cbn [orb]. apply syncAccount_finish_not_rejected.
  - intros Hh Hr. rewrite Hr. unfold syncAccount. rewrite Hh. cbn [orb].
    eexists. reflexivity.
Qed.



End PauseReset.

(** X19. With [min_block_confirm] absent, 0 or 1 in the configuration the
    manager works with 1: a transaction mined in the tip block is pending,
    not confirmed. *)
Theorem min_block_confirm_zero_is_one (cfg : option Z) (tx : Tx) (s : SyncManager) :
  (cfg = None \/ cfg = Some 0 \/ cfg = Some 1) ->
  minBlockConfirm s = WalletPayBitcoin_min_block_confirm cfg ->
  tx_height tx <> 0 ->
  tx_height tx = blk_current (currentBlock s) ->
  _getTxState tx s = pending.
Proof.
  intros Hcfg Hm Hh Htip. unfold _getTxState.
  rewrite (bool_decide_eq_false_2 _ Hh), Hm, Htip.
  assert (WalletPayBitcoin_min_block_confirm cfg = 1) as ->
    by (destruct Hcfg as [-> | [-> | ->]]; reflexivity).
  rewrite bool_decide_eq_false_2 by lia. reflexivity.
Qed.

(** ** Balances *)

Section Balances.

Context (keyManager : KeyManager).

(** X27. [getBalance] for an address rejects exactly when the
    AddressStore has no record of it; after [_processHistory] it resolves
    for the address of every input and output of the history, the wallet's
    or not. *)
Theorem getBalance_after_history
    (txHistory : list Tx) (path : option string) (s : SyncManager) (a : string) :
  a <> "" ->
  (forall t, Result_threw (getBalance (Some a) t) = true
             <-> AddressManager_get a (_addr t) = None)
  /\ (Exists (fun tx => a ∈ map u_address (tx_out tx) \/ a ∈ map u_address (tx_in tx))
        txHistory ->
      Result_threw
        (getBalance (Some a) (fst (_processHistory keyManager txHistory path s))) = false).
Proof.
  intros Ha.
  assert (Hiff : forall t, Result_threw (getBalance (Some a) t) = true
                           <-> AddressManager_get a (_addr t) = None).
  { intros t. unfold getBalance. rewrite (bool_decide_eq_false_2 _ Ha).
    destruct (AddressManager_get a (_addr t)); cbn; split; intros; congruence. }
  split; [exact Hiff |]. intros Hex.
  destruct (processHistory_spec keyManager txHistory path s) as (_ & _ & Hs & _).
  set (s' := fst (_processHistory keyManager txHistory path s)) in *.
  assert (Hrec : is_Some (AddressManager_get a (_addr s'))).
  { apply Exists_exists in Hex as (tx & Htx & Hin).
    rewrite Forall_forall in Hs. destruct (Hs tx Htx) as [Ho Hi].
    destruct Hin as [Hin | Hin];
      apply list_elem_of_In, in_map_iff in Hin as (u & <- & Hu);
      apply list_elem_of_In in Hu.
    - rewrite Forall_forall in Ho. apply (Ho u Hu).
    - rewrite Forall_forall in Hi. apply (Hi u Hu). }
  destruct (Result_threw (getBalance (Some a) s')) eqn:Ht; [| reflexivity].
  apply Hiff in Ht. rewrite Ht in Hrec. destruct Hrec as [x Hx]. discriminate.
Qed.

End Balances.

(** ** The watcher over sequences of calls *)

Lemma watchAddress_other_chain
    (pv : Provider) (h : string) (c c' : Chain) (w : AddressWatch) :
  c' <> c ->
  StateDb_getWatchedScriptHashes c'
    (aw_state (Result_state (AddressWatch_watchAddress pv h c w)))
  = StateDb_getWatchedScriptHashes c' (aw_state w).
Proof.
  intros Hne. unfold AddressWatch_watchAddress.
  destruct (rpc_subscribeToAddress pv h) as [b | e]; [| reflexivity].
  destruct (BalHash_message b); [reflexivity |].
  destruct c, c'; try congruence; reflexivity.
Qed.

Lemma watchAddress_same_chain_length
    (pv : Provider) (h : string) (c : Chain) (w : AddressWatch) :
  let l := StateDb_getWatchedScriptHashes c (aw_state w) in
  let l' := StateDb_getWatchedScriptHashes c
              (aw_state (Result_state (AddressWatch_watchAddress pv h c w))) in
  l' = l
  \/ length l'
     = S (length (if bool_decide (aw_maxScriptWatch w <= Z.of_nat (length l))
                  then tail l else l)).
Proof.
  cbv zeta. unfold AddressWatch_watchAddress.
  destruct (rpc_subscribeToAddress pv h) as [b | e]; [| left; reflexivity].
  destruct (BalHash_message b); [left; reflexivity |].
  right. destruct c; cbn; rewrite length_app; cbn; unfold shift; lia.
Qed.

(** Either chain's list stays within [max 1 maxScriptWatch]. *)
Lemma watchAddress_step_bound
    (pv : Provider) (w : AddressWatch) (call : string * Chain) :
  aw_maxScriptWatch w <> 0 ->
  (forall c, Z.of_nat (length (StateDb_getWatchedScriptHashes c (aw_state w)))
             <= Z.max 1 (aw_maxScriptWatch w)) ->
  aw_maxScriptWatch (AddressWatch_after pv w call) = aw_maxScriptWatch w
  /\ (forall c,
        Z.of_nat (length (StateDb_getWatchedScriptHashes c
                            (aw_state (AddressWatch_after pv w call))))
        <= Z.max 1 (aw_maxScriptWatch w)).
Proof.
  intros Hmax Hb. destruct call as [h c0]. unfold AddressWatch_after. cbn [fst snd].
  split; [apply watchAddress_keeps_max |].
  intros c. destruct (decide (c = c0)) as [-> | Hne].
  - pose proof (watchAddress_same_chain_length pv h c0 w) as Hl. cbv zeta in Hl.
    specialize (Hb c0). destruct Hl as [-> | ->]; [exact Hb |].
    destruct (StateDb_getWatchedScriptHashes c0 (aw_state w)) as [| p l];
      case_bool_decide; cbn [tail length] in *; lia.
  - rewrite watchAddress_other_chain by assumption. apply Hb.
Qed.

Lemma watchAddress_all_bound
    (pv : Provider) (calls : list (string * Chain)) (w : AddressWatch) :
  aw_maxScriptWatch w <> 0 ->
  (forall c, Z.of_nat (length (StateDb_getWatchedScriptHashes c (aw_state w)))
             <= Z.max 1 (aw_maxScriptWatch w)) ->
  aw_maxScriptWatch (AddressWatch_after_all pv calls w) = aw_maxScriptWatch w
  /\ (forall c,
        Z.of_nat (length (StateDb_getWatchedScriptHashes c
                            (aw_state (AddressWatch_after_all pv calls w))))
        <= Z.max 1 (aw_maxScriptWatch w)).
Proof.
  revert w. induction calls as [| call calls IH]; intros w Hmax Hb.
  - split; [reflexivity | exact Hb].
  - destruct (watchAddress_step_bound pv w call Hmax Hb) as [Hm' Hb'].
    unfold AddressWatch_after_all in *. cbn [fold_left].
    destruct (IH (AddressWatch_after pv w call)) as [Hm'' Hb''].
    + rewrite Hm'. exact Hmax.
    + rewrite Hm'. exact Hb'.
    + rewrite Hm' in *. split; assumption.
Qed.

(** X20. Starting from a store without watched hashes, after any sequence
    of calls of [watchAddress], resolved or rejected, each chain holds at
    most [max 1 maxScriptWatch] pairs (10 with the default), so
    [startWatching] re-subscribes to at most twice as many script hashes. *)
Theorem watch_list_bounded_always
    (pv : Provider) (cfg : option Z) (calls : list (string * Chain)) :
  let w := AddressWatch_after_all pv calls (AddressWatch_new StateDb_empty cfg) in
  let bound := Z.max 1 (AddressWatch_default_max cfg) in
  (forall c, Z.of_nat (length (StateDb_getWatchedScriptHashes c (aw_state w))) <= bound)
  /\ Z.of_nat (length (AddressWatch_startWatching_hashes w)) <= 2 * bound.
Proof.
  cbv zeta.
  destruct (watchAddress_all_bound pv calls (AddressWatch_new StateDb_empty cfg))
    as [_ Hb].
  - apply AddressWatch_default_max_nonzero.
  - intros c. destruct c; cbn; lia.
  - cbn [AddressWatch_new aw_maxScriptWatch] in Hb. split; [exact Hb |].
    unfold AddressWatch_startWatching_hashes.
    rewrite List.length_map, length_app.
    pose proof (Hb chain_in). pose proof (Hb chain_ext). lia.
Qed.

(** X21. A call of [watchAddress] never touches the list of the other
    chain; a rejected call leaves the watcher as it was; and a resolved
    call makes its script hash one of those [startWatching] subscribes to
    again. *)
Theorem watchAddress_isolated
    (pv : Provider) (scriptHash : string) (addrType : Chain) (w : AddressWatch) :
  let r := AddressWatch_watchAddress pv scriptHash addrType w in
  (forall c, c <> addrType ->
     StateDb_getWatchedScriptHashes c (aw_state (Result_state r))
     = StateDb_getWatchedScriptHashes c (aw_state w))
  /\ (Result_threw r = true -> Result_state r = w)
  /\ (Result_threw r = false ->
      scriptHash ∈ AddressWatch_startWatching_hashes (Result_state r)).
Proof.
  cbv zeta. split; [intros c Hc; apply watchAddress_other_chain; exact Hc |].
  unfold AddressWatch_watchAddress.
  destruct (rpc_subscribeToAddress pv scriptHash) as [b | e];
    [| split; [reflexivity | discriminate]].
  destruct (BalHash_message b); [split; [reflexivity | discriminate] |].
  split; [discriminate |]. intros _. unfold AddressWatch_startWatching_hashes.
  cbn [Result_state aw_state]. apply list_elem_of_In, in_map_iff.
  exists (scriptHash, b). split; [reflexivity |]. apply in_or_app.
  destruct addrType; cbn; [right | left]; apply in_or_app; right; left; reflexivity.
Qed.

(** X26. [startWatching] leaves the persisted lists alone, asks for the
    watched hashes of the internal chain and then of the external chain,
    and resolves exactly when the subscription of every one of them
    succeeds. *)
Theorem startWatching_resubscribes (pv : Provider) (w : AddressWatch) :
  let r := AddressWatch_startWatching pv w in
  Result_state r = w
  /\ (Result_threw r = false <->
      Forall (fun h => exists b, rpc_subscribeToAddress pv h = rpc_ok b)
        (AddressWatch_startWatching_hashes w))
  /\ (Result_threw r = false ->
      r = Returned
            (map fst (StateDb_getWatchedScriptHashes chain_in (aw_state w))
             ++ map fst (StateDb_getWatchedScriptHashes chain_ext (aw_state w))) w).
Proof.
  cbv zeta. unfold AddressWatch_startWatching.
  set (hashes := AddressWatch_startWatching_hashes w).
  set (failing := fun h => match rpc_subscribeToAddress pv h with
                           | rpc_fail _ => true | rpc_ok _ => false end).
  assert (Heq : hashes
                = map fst (StateDb_getWatchedScriptHashes chain_in (aw_state w))
                  ++ map fst (StateDb_getWatchedScriptHashes chain_ext (aw_state w)))
    by (subst hashes; unfold AddressWatch_startWatching_hashes; apply List.map_app).
  destruct (List.find failing hashes) as [h |] eqn:Hfind.
  - apply find_some in Hfind as [Hin Hf]. subst failing. cbn beta in Hf.
    destruct (rpc_subscribeToAddress pv h) as [b | err] eqn:Hsub; [discriminate |].
    cbn [Result_state Result_threw]. split; [reflexivity |]. split; [| discriminate].
    split; [discriminate |]. intros Hall. exfalso.
    rewrite Forall_forall in Hall. destruct (Hall h) as [b Hb].
    + apply list_elem_of_In. exact Hin.
    + congruence.
  - cbn [Result_state Result_threw]. split; [reflexivity |]. split.
    + split; [intros _ | reflexivity]. apply Forall_forall. intros h Hin.
      apply list_elem_of_In in Hin.
      pose proof (find_none _ _ Hfind h Hin) as Hf. subst failing. cbn beta in Hf.
      destruct (rpc_subscribeToAddress pv h) as [b | err]; [eauto | discriminate].
    + intros _. rewrite Heq. reflexivity.
Qed.

(** ** The transaction cache of [Electrum] *)

Section CacheProperties.

Context {V : Type}.

Lemma JsMap_get_set_eq (k : string) (v : V) (m : list (string * V)) :
  JsMap_get k (JsMap_set k v m) = Some v.
Proof.
  unfold JsMap_get. induction m as [| [k' v'] m IH]; cbn.
  - rewrite bool_decide_eq_true_2 by reflexivity. reflexivity.
  - case_bool_decide as Hk; cbn.
    + rewrite bool_decide_eq_true_2 by reflexivity. reflexivity.
    + rewrite bool_decide_eq_false_2 by assumption. exact IH.
Qed.






(** X23. A transaction fetched by [getOrFetch] is in the cache
    afterwards, and asking for it again is answered from the cache,
    without a request and without a change of the cache. *)
Theorem getOrFetch_round_trip
    (fetch fetch' : string -> RpcResult V) (max : nat) (txid : string)
    (cache : list (string * V)) (data : V) :
  fst (getOrFetch fetch max txid cache) = rpc_ok data ->
  let cache' := snd (getOrFetch fetch max txid cache) in
  JsMap_get txid cache' = Some data
  /\ getOrFetch fetch' max txid cache' = (rpc_ok data, cache').
Proof.
  intros Hok. cbv zeta.
  assert (Hget : JsMap_get txid (snd (getOrFetch fetch max txid cache)) = Some data).
  { revert Hok. unfold getOrFetch.
    destruct (JsMap_get txid cache) eqn:Hc; cbn [fst snd].
    - intros H. injection H as ->. exact Hc.
    - destruct (fetch txid); cbn [fst snd]; [| discriminate].
      intros H. injection H as ->. apply JsMap_get_set_eq. }
  split; [exact Hget |].
  unfold getOrFetch at 1. rewrite Hget. reflexivity.
Qed.

End CacheProperties.

(** ** The key manager *)

Section KeyManagerProperties.

Context {Seed Network Bip32 : Type}.
Context (networks : string -> option Network) (fromSeed : Seed -> Network -> Bip32).

(** X24. [setNetwork] treats ['mainnet'] as ['bitcoin']; and since it
    assigns before it tests, a call with an unknown name not only rejects
    but also erases a network set before, so that a following [setSeed]
    rejects with 'Network not set'. *)
Theorem setNetwork_unknown_erases
    (name : string) (k : WalletKeyBitcoin (Seed := Seed) (Network := Network) (Bip32 := Bip32)) :
  setNetwork networks "mainnet" k = setNetwork networks "bitcoin" k
  /\ (name <> "mainnet" -> networks name = None ->
      let r := setNetwork networks name k in
      Result_threw r = true
      /\ k_network (Result_state r) = None
      /\ (k_seed k = None ->
          forall seed,
            setSeed fromSeed seed (Result_state r)
            = Threw (Error "Network not set") (Result_state r))).
Proof.
  split; [reflexivity |].
  intros Hname Hnone. cbv zeta. unfold setNetwork.
  rewrite (bool_decide_eq_false_2 _ Hname). cbn [k_network]. rewrite Hnone.
  cbn [Result_threw Result_state k_network]. repeat split.
  intros Hseed seed. unfold setSeed. cbn [k_seed k_network]. rewrite Hseed. reflexivity.
Qed.


End KeyManagerProperties.

(** ** Sample runs *)

Lemma processHistory_fires_watched_witness :
  NoDup (_tx_events SampleMore.waiting)
  /\ "t2" ∈ _tx_events SampleMore.waiting
  /\ Exists (fun tx => tx_txid tx = "t2" /\ tx_height tx = 0)
       [Sample.tx_receive; Sample.tx_sweep]
  /\ ("t2" ∉ _tx_events
        (fst (_processHistory Sample.keyManager [Sample.tx_receive; Sample.tx_sweep] None
                SampleMore.waiting))).
Proof.
  assert (H1 : NoDup (_tx_events SampleMore.waiting))
    by (vm_compute; apply NoDup_singleton).
  assert (H2 : "t2" ∈ _tx_events SampleMore.waiting)
    by (vm_compute; apply list_elem_of_singleton; reflexivity).
  assert (H3 : Exists (fun tx => tx_txid tx = "t2" /\ tx_height tx = 0)
                 [Sample.tx_receive; Sample.tx_sweep])
    by (apply Exists_cons_tl, Exists_cons_hd; split; reflexivity).
  split; [exact H1 |]. split; [exact H2 |]. split; [exact H3 |].
  exact (proj1 (processHistory_fires_watched Sample.keyManager "t2"
                  [Sample.tx_receive; Sample.tx_sweep] None SampleMore.waiting H1 H2 H3)).
Defined.

Lemma watch_then_emit_round_trip_witness :
  (e_txid SampleMore.sweep_entry ∉ _tx_events Sample.manager)
  /\ e_height SampleMore.sweep_entry = 0
  /\ _tx_events (_emitTxEvent SampleMore.sweep_entry
                   (watchTxMempool (e_txid SampleMore.sweep_entry) Sample.manager))
     = _tx_events Sample.manager.
Proof.
  assert (H1 : e_txid SampleMore.sweep_entry ∉ _tx_events Sample.manager)
    by (vm_compute; apply not_elem_of_nil).
  assert (H2 : e_height SampleMore.sweep_entry = 0) by reflexivity.
  split; [exact H1 |]. split; [exact H2 |].
  exact (proj1 (watch_then_emit_round_trip SampleMore.sweep_entry Sample.manager H1 H2)).
Defined.

Lemma processHistory_unregistered_silent_witness :
  ("t2" ∉ _tx_events Sample.manager)
  /\ emitted ("tx:mempool:" +:+ "t2")
       (effects (fst (_processHistory Sample.keyManager [Sample.tx_sweep] None Sample.manager)))
     = emitted ("tx:mempool:" +:+ "t2") (effects Sample.manager).
Proof.
  assert (H1 : "t2" ∉ _tx_events Sample.manager) by (vm_compute; apply not_elem_of_nil).
  split; [exact H1 |].
  exact (proj2 (processHistory_unregistered_silent Sample.keyManager "t2" [Sample.tx_sweep]
                  None Sample.manager H1)).
Defined.


Lemma syncAccount_survives_failure_witness :
  _halt Sample.manager = false /\ _isSyncing Sample.manager = false
  /\ (c_gap (HdWallet_cursor chain_ext (hdWallet Sample.manager))
      < hd_gapLimit (hdWallet Sample.manager))%nat
  /\ provider_cache Sample.manager !! "sh:m/84'/1'/0'/0/0" = None
  /\ rpc_getAddressHistory Sample.provider_down "sh:m/84'/1'/0'/0/0" = rpc_fail "ECONNRESET"
  /\ exists s',
       syncAccount Sample.keyManager Sample.provider_down 1 None Sample.manager
       = sync_resolved s'
       /\ hdWallet s' = hdWallet Sample.manager.
Proof.
  assert (H1 : _halt Sample.manager = false) by reflexivity.
  assert (H2 : _isSyncing Sample.manager = false) by reflexivity.
  assert (H3 : (c_gap (HdWallet_cursor chain_ext (hdWallet Sample.manager))
                < hd_gapLimit (hdWallet Sample.manager))%nat) by (vm_compute; lia).
  assert (H4 : provider_cache Sample.manager !! "sh:m/84'/1'/0'/0/0" = None) by reflexivity.
  assert (H5 : rpc_getAddressHistory Sample.provider_down "sh:m/84'/1'/0'/0/0"
               = rpc_fail "ECONNRESET") by reflexivity.
  split; [exact H1 |]. split; [exact H2 |]. split; [exact H3 |]. split; [exact H4 |].
  split; [exact H5 |].
  destruct (syncAccount_survives_failure Sample.keyManager Sample.provider_down 0
              Sample.manager "ECONNRESET" H1 H2 H3 H4 H5) as (s' & A & B & _).
  exists s'. split; [exact A | exact B].
Defined.

Lemma updateScriptHashBalance_ignores_witness :
  let watching :=
    set_addrWatch
      (mkAddressWatch (mkStateDb [("sh:m/84'/1'/0'/0/0", bh_status "s1")] []) 10)
      Sample.manager in
  Forall
    (fun entry : string * BalHash =>
       _halt watching = true \/ fst entry <> "sh:other"
       \/ changeHash_strict_eq (Some (bh_status "s2")) (snd entry) = true)
    (StateDb_getWatchedScriptHashes chain_ext (aw_state (_addrWatch watching))
     ++ StateDb_getWatchedScriptHashes chain_in (aw_state (_addrWatch watching)))
  /\ _updateScriptHashBalance Sample.keyManager Sample.provider_down "sh:other"
       (Some (bh_status "s2")) watching
     = Threw (TypeError "_addrWatch.stopWatching is not a function") watching.
Proof.
  intros watching.
  assert (H : Forall
    (fun entry : string * BalHash =>
       _halt watching = true \/ fst entry <> "sh:other"
       \/ changeHash_strict_eq (Some (bh_status "s2")) (snd entry) = true)
    (StateDb_getWatchedScriptHashes chain_ext (aw_state (_addrWatch watching))
     ++ StateDb_getWatchedScriptHashes chain_in (aw_state (_addrWatch watching)))).
  { cbn. constructor; [| constructor]. right. left. cbn. discriminate. }
  split; [exact H |].
  exact (updateScriptHashBalance_ignores Sample.keyManager Sample.provider_down "sh:other"
           (Some (bh_status "s2")) watching H).
Defined.

Lemma newBlock_emits_witness :
  _newBlock_arr SampleMore.funded <> []
  /\ fetch_all SampleMore.getTransaction (map e_txid (_newBlock_arr SampleMore.funded))
     = rpc_ok [Sample.tx_sweep]
  /\ unspent_process_calls
       (effects (_newBlock Sample.keyManager SampleMore.getTransaction SampleMore.funded))
     = S (unspent_process_calls (effects SampleMore.funded)).
Proof.
  assert (H1 : _newBlock_arr SampleMore.funded <> []) by (vm_compute; discriminate).
  assert (H2 : fetch_all SampleMore.getTransaction
                 (map e_txid (_newBlock_arr SampleMore.funded)) = rpc_ok [Sample.tx_sweep])
    by (vm_compute; reflexivity).
  split; [exact H1 |]. split; [exact H2 |].
  exact (proj1 (proj2 (newBlock_emits Sample.keyManager SampleMore.getTransaction
                         SampleMore.funded [Sample.tx_sweep] H1 H2))).
Defined.

Lemma min_block_confirm_zero_is_one_witness :
  let tip := mkTx "t3" 105 1000 [] [] in
  (Some 0 = None \/ Some 0 = Some 0 \/ Some 0 = Some 1)
  /\ minBlockConfirm Sample.manager = WalletPayBitcoin_min_block_confirm (Some 0)
  /\ tx_height tip <> 0
  /\ tx_height tip = blk_current (currentBlock Sample.manager)
  /\ _getTxState tip Sample.manager = pending.
Proof.
  intros tip.
  assert (H1 : Some 0 = None \/ Some 0 = Some 0 \/ Some 0 = Some 1)
    by (right; left; reflexivity).
  assert (H2 : minBlockConfirm Sample.manager = WalletPayBitcoin_min_block_confirm (Some 0))
    by reflexivity.
  assert (H3 : tx_height tip <> 0) by (vm_compute; discriminate).
  assert (H4 : tx_height tip = blk_current (currentBlock Sample.manager)) by reflexivity.
  split; [exact H1 |]. split; [exact H2 |]. split; [exact H3 |]. split; [exact H4 |].
  exact (min_block_confirm_zero_is_one (Some 0) tip Sample.manager H1 H2 H3 H4).
Defined.

Lemma getOrFetch_round_trip_witness :
  fst (getOrFetch SampleMore.fetch 100 "t1" []) = rpc_ok "0200000001"
  /\ JsMap_get "t1" (snd (getOrFetch SampleMore.fetch 100 "t1" [])) = Some "0200000001".
Proof.
  assert (H : fst (getOrFetch SampleMore.fetch 100 "t1" []) = rpc_ok "0200000001")
    by reflexivity.
  split; [exact H |].
  exact (proj1 (getOrFetch_round_trip SampleMore.fetch SampleMore.fetch 100 "t1" []
                  "0200000001" H)).
Defined.


Lemma updateBlock_never_regresses_witness :
  let block := mkBlock 106 105 1 in
  blk_current (currentBlock Sample.manager) <= blk_current block
  /\ _getTxState Sample.tx_receive Sample.manager = confirmed
  /\ _getTxState Sample.tx_receive
       (updateBlock Sample.keyManager SampleMore.getTransaction block Sample.manager)
     = confirmed.
Proof.
  intros block.
  assert (H1 : blk_current (currentBlock Sample.manager) <= blk_current block)
    by (vm_compute; discriminate).
  assert (H2 : _getTxState Sample.tx_receive Sample.manager = confirmed) by reflexivity.
  split; [exact H1 |]. split; [exact H2 |].
  exact (proj2 (proj2 (updateBlock_never_regresses Sample.keyManager SampleMore.getTransaction
                         block Sample.manager Sample.tx_receive)) H1 H2).
Defined.


Lemma syncTransactions_reset_clears_halt_witness :
  let halted := stopSync Sample.manager in
  _halt halted = true
  /\ opts_reset_set None = false
  /\ exists e,
       syncTransactions Sample.keyManager Sample.provider_idle (fun _ => TotalBalance_zero)
         5 None halted
       = sync_rejected e halted.
Proof.
  intros halted.
  assert (H1 : _halt halted = true) by reflexivity.
  assert (H2 : opts_reset_set None = false) by reflexivity.
  split; [exact H1 |]. split; [exact H2 |].
  exact (proj2 (syncTransactions_reset_clears_halt Sample.keyManager Sample.provider_idle
                  (fun _ => TotalBalance_zero) 5 None halted) H1 H2).
Defined.

Lemma setNetwork_unknown_erases_witness :
  "signet" <> "mainnet"
  /\ SampleMore.networks "signet" = None
  /\ k_network (Result_state (setNetwork SampleMore.networks "signet" SampleMore.key)) = None.
Proof.
  assert (H1 : "signet" <> "mainnet") by discriminate.
  assert (H2 : SampleMore.networks "signet" = None) by reflexivity.
  split; [exact H1 |]. split; [exact H2 |].
  exact (proj1 (proj2 (proj2 (setNetwork_unknown_erases SampleMore.networks
                                SampleMore.fromSeed "signet" SampleMore.key) H1 H2))).
Defined.

Lemma getBalance_after_history_witness :
  "bcrt1qtheirs" <> ""
  /\ Exists (fun tx => "bcrt1qtheirs" ∈ map u_address (tx_out tx)
                       \/ "bcrt1qtheirs" ∈ map u_address (tx_in tx))
       [Sample.tx_sweep]
  /\ Result_threw
       (getBalance (Some "bcrt1qtheirs")
          (fst (_processHistory Sample.keyManager [Sample.tx_sweep] None Sample.manager)))
     = false.
Proof.
  assert (H1 : "bcrt1qtheirs" <> "") by discriminate.
  assert (H2 : Exists (fun tx => "bcrt1qtheirs" ∈ map u_address (tx_out tx)
                                 \/ "bcrt1qtheirs" ∈ map u_address (tx_in tx))
                 [Sample.tx_sweep]).
  { apply Exists_cons_hd. left. cbn. apply list_elem_of_singleton. reflexivity. }
  split; [exact H1 |]. split; [exact H2 |].
  exact (proj2 (getBalance_after_history Sample.keyManager [Sample.tx_sweep] None
                  Sample.manager "bcrt1qtheirs" H1) H2).
Defined.
